(** * BpfUtils.h: the bpf(2) syscall wrappers of libbpf_android

    A shallow embedding of [src/libbpf_android/include/bpf/BpfUtils.h].
    Every wrapper builds a [bpf_attr] by aggregate initialisation, hands it to
    [bpf], which issues [syscall(__NR_bpf, cmd, &attr, sizeof(attr))] and
    returns the result as an [int].

    - machine integers are [Z] with the wrap-around written out;
    - a [bpf_attr] is the byte image of the union (little-endian, as on every
      Android target), so that overlapping members of the union really
      overlap;
    - the interaction with the operating system is a tree of system calls
      ([os]), interpreted by a handler that threads the state of the world. *)

From Stdlib Require Import ZArith Lia.
From stdpp Require Import base tactics option list numbers strings gmap.

Open Scope Z_scope.

(** ** Machine integers *)

(** [static_cast<__u32>(x)]: reduction modulo 2^32. *)
Definition u32 (x : Z) : Z := x mod 2 ^ 32.

(** What a [uint64_t] parameter or a [__u64] member holds of [x]. *)
Definition u64 (x : Z) : Z := x mod 2 ^ 64.

(** [(uint64_t)(uintptr_t)(x)]: the address as an unsigned 64-bit number. *)
Definition ptr_to_u64 (x : Z) : Z := u64 x.

(** The conversion of the [long] that [syscall] returns to the [int] that
    [bpf] returns (two's complement wrap-around). *)
Definition to_int (x : Z) : Z := (x + 2 ^ 31) mod 2 ^ 32 - 2 ^ 31.

(** What an [int], a [uint32_t] and a pointer can hold. *)
Definition is_int (x : Z) : Prop := - 2 ^ 31 <= x < 2 ^ 31.
Definition is_u32 (x : Z) : Prop := 0 <= x < 2 ^ 32.
Definition is_ptr (x : Z) : Prop := 0 <= x < 2 ^ 64.

(** The null pointer. *)
Definition NULL : Z := 0.

(** ** [base::unique_fd] *)
Module unique_fd.

(** Modelled from the spec: the "unique owned file descriptor" abstraction
    of [android-base/unique_fd.h], which this repository includes but does
    not define: an object that owns one descriptor, an [int]. The wrappers
    receive it as [const base::unique_fd&] and only ever call [get]. *)
Record t : Type := mk { get : Z }.

End unique_fd.

(** ** [union bpf_attr] *)
Module bpf_attr.

(** Modelled from the spec: the members of [union bpf_attr] that the wrappers
    name. The union is declared in the kernel header [<linux/bpf.h>], which
    is included by, but is not part of, this repository; offsets and widths
    are those of the kernel ABI ("the wire format ... is dictated by the
    kernel ABI"). The four anonymous structs all start at offset 0. *)
Inductive field : Type :=
  (* BPF_MAP_CREATE *)
  | map_type | key_size | value_size | max_entries | map_flags
  (* BPF_MAP_*_ELEM and BPF_MAP_GET_NEXT_KEY *)
  | map_fd | key | value | next_key | flags
  (* BPF_OBJ_PIN and BPF_OBJ_GET *)
  | pathname | bpf_fd | file_flags
  (* BPF_PROG_ATTACH and BPF_PROG_DETACH *)
  | target_fd | attach_bpf_fd | attach_type.

Definition offset (f : field) : nat :=
  match f with
  | map_type => 0 | key_size => 4 | value_size => 8 | max_entries => 12
  | map_flags => 16
  | map_fd => 0 | key => 8 | value => 16 | next_key => 16 | flags => 24
  | pathname => 0 | bpf_fd => 8 | file_flags => 12
  | target_fd => 0 | attach_bpf_fd => 4 | attach_type => 8
  end%nat.

Definition width (f : field) : nat :=
  match f with
  | key | value | next_key | flags | pathname => 8
  | _ => 4
  end%nat.

(** The byte image of the union: one [Z] in [0, 256) per byte. *)
Abbreviation t := (list Z).

(** The all-zero attribute of [size] bytes. *)
Definition zero (size : nat) : t := replicate size 0.

(** Little-endian store of the low [n] bytes of [v] at byte offset [off]. *)
Fixpoint store (off n : nat) (v : Z) (a : t) : t :=
  match n with
  | O => a
  | S n' => <[off := v mod 256]> (store (S off) n' (v / 256) a)
  end.

(** Byte [i] of the image (0 beyond its end). *)
Definition byte (a : t) (i : nat) : Z := default 0 (a !! i).

(** Little-endian load of [n] bytes at byte offset [off]. *)
Fixpoint load (off n : nat) (a : t) : Z :=
  match n with
  | O => 0
  | S n' => byte a off + 256 * load (S off) n' a
  end.

Definition set (f : field) (v : Z) (a : t) : t := store (offset f) (width f) v a.
Definition get (f : field) (a : t) : Z := load (offset f) (width f) a.

(** The aggregate initialisation [{ .f1 = v1, ..., .fn = vn }] of a
    [bpf_attr] temporary: the designated members are assigned, in order, on
    an object that is zero everywhere else (the note above [bpf] in the
    source: the attribute is fully zeroed). *)
Definition init (size : nat) (designated : list (field * Z)) : t :=
  foldl (fun a fv => set (fst fv) (snd fv) a) (zero size) designated.

(** Byte [i] lies inside member [f]. *)
Definition inside (f : field) (i : nat) : bool :=
  (offset f <=? i)%nat && (i <? offset f + width f)%nat.

(** Byte [i] lies inside one of the members [fs]. *)
Definition covered (fs : list field) (i : nat) : bool := existsb (fun f => inside f i) fs.

(** Every byte of [a] outside the members [fs] is zero. *)
Definition zero_outside (fs : list field) (a : t) : Prop :=
  forall i : nat, (i < length a)%nat -> covered fs i = false -> a !! i = Some 0.

(** Two members that share no byte. *)
Definition disjoint (f g : field) : bool :=
  (offset f + width f <=? offset g)%nat || (offset g + width g <=? offset f)%nat.

#[global] Instance field_eq_dec : EqDecision field.
Proof. solve_decision. Defined.

(** The value an initialiser designates for member [f], if any. *)
Fixpoint assigned (f : field) (designated : list (field * Z)) : option Z :=
  match designated with
  | [] => None
  | gv :: rest =>
      match assigned f rest with
      | Some v => Some v
      | None => if decide (gv.1 = f) then Some gv.2 else None
      end
  end.

(** No member of the initialiser overlaps [f] without being [f]. *)
Definition compatible (f : field) (designated : list (field * Z)) : bool :=
  forallb (fun gv => bool_decide (gv.1 = f) || disjoint gv.1 f) designated.

(** Member [f] lies within the first [size] bytes. *)
Definition fits (size : nat) (f : field) : bool := (offset f + width f <=? size)%nat.

(** The [n] little-endian bytes of [v], as they stand in memory. *)
Fixpoint le (n : nat) (v : Z) : list Z :=
  match n with
  | O => []
  | S n' => v mod 256 :: le n' (v / 256)
  end.

End bpf_attr.

(** ** System calls *)

(** The requests a process can make to the operating system:
    [syscall(__NR_bpf, cmd, &attr, size)], the one request of this file, and
    [close(fd)], by which the owner of a handle releases it (no function of
    this file makes it). *)
Inductive request : Type :=
  | sys_bpf (cmd : Z) (attr : bpf_attr.t) (size : Z)
  | sys_close (fd : Z).

(** A computation that makes system calls: each call hands the [long] it
    returns to the rest of the computation. *)
Inductive os (A : Type) : Type :=
  | Ret (a : A)
  | Syscall (q : request) (k : Z -> os A).

Arguments Ret {A} a.
Arguments Syscall {A} q k.

(** Running a computation against an operating system [handler] that
    threads a state of the world [W]. *)
Fixpoint run {W A : Type} (handler : request -> W -> Z * W) (p : os A) (w : W) : A * W :=
  match p with
  | Ret a => (a, w)
  | Syscall q k => let (r, w') := handler q w in run handler (k r) w'
  end.

(** The requests made during such a run, in order. *)
Fixpoint trace {W A : Type} (handler : request -> W -> Z * W) (p : os A) (w : W) : list request :=
  match p with
  | Ret _ => []
  | Syscall q k => let (r, w') := handler q w in q :: trace handler (k r) w'
  end.

(** [issues p q]: for some answers of the operating system, [p] makes the
    request [q]. *)
Inductive issues {A : Type} : os A -> request -> Prop :=
  | issues_here q k : issues (Syscall q k) q
  | issues_later q k r q' : issues (k r) q' -> issues (Syscall q k) q'.

(** Modelled from the spec: the values of [enum bpf_cmd], declared in the
    kernel header [<linux/bpf.h>] that is not part of this repository (one
    "command enumerator" per kernel command). *)
Definition BPF_MAP_CREATE : Z := 0.
Definition BPF_MAP_LOOKUP_ELEM : Z := 1.
Definition BPF_MAP_UPDATE_ELEM : Z := 2.
Definition BPF_MAP_DELETE_ELEM : Z := 3.
Definition BPF_MAP_GET_NEXT_KEY : Z := 4.
Definition BPF_OBJ_PIN : Z := 6.
Definition BPF_OBJ_GET : Z := 7.
Definition BPF_PROG_ATTACH : Z := 8.
Definition BPF_PROG_DETACH : Z := 9.

(** ** The other side of the syscall boundary *)
Module Kernel.

(** Modelled from the spec: the kernel's side of [bpf(2)], which is not code
    of this repository. The model follows the operation table of the spec
    (section 4.1) and its error taxonomy (section 7): a map is a key/value
    store of fixed key and value sizes with a capacity; descriptors name
    kernel objects; paths of the pseudo-filesystem name pinned objects; a
    control group has at most one program per attach point. The strict
    check of the attribute (every byte outside the members a command reads
    must be zero, and the size must be that of the attribute) is the one
    the note above [bpf] in the source describes. Memory faults, access
    modes of descriptors and permissions are outside the model. *)
Record bpf_map : Type := mk_map {
  m_type : Z;
  m_key_size : nat;
  m_value_size : nat;
  m_max_entries : nat;
  m_flags : Z;
  m_entries : list (list Z * list Z)
}.

(** Modelled from the spec: the kernel objects a descriptor can name: a
    map, a loaded program, or a control group with the programs attached to
    it (attach type to object id). *)
Inductive object : Type :=
  | Map (m : bpf_map)
  | Prog
  | Cgroup (attached : gmap Z nat).

(** Modelled from the spec: the state of the world on both sides of the
    boundary: the caller's memory (address to byte; a byte never written
    reads as 0), the last error, the table of open descriptors (descriptor
    to object id), the kernel objects by id, the pinned paths, and the limit
    on the number of descriptors. *)
Record world : Type := mk_world {
  mem : gmap Z Z;
  errno : Z;
  fds : gmap Z nat;
  objs : list object;
  pins : gmap (list Z) nat;
  nofile : nat
}.

Definition with_mem (m : gmap Z Z) (w : world) : world :=
  mk_world m (errno w) (fds w) (objs w) (pins w) (nofile w).
Definition with_errno (e : Z) (w : world) : world :=
  mk_world (mem w) e (fds w) (objs w) (pins w) (nofile w).
Definition with_fds (f : gmap Z nat) (w : world) : world :=
  mk_world (mem w) (errno w) f (objs w) (pins w) (nofile w).
Definition with_objs (o : list object) (w : world) : world :=
  mk_world (mem w) (errno w) (fds w) o (pins w) (nofile w).
Definition with_pins (p : gmap (list Z) nat) (w : world) : world :=
  mk_world (mem w) (errno w) (fds w) (objs w) p (nofile w).

(** Error codes left in [errno]. *)
Definition ENOENT : Z := 2.
Definition E2BIG : Z := 7.
Definition EBADF : Z := 9.
Definition EBUSY : Z := 16.
Definition EEXIST : Z := 17.
Definition EINVAL : Z := 22.
Definition EMFILE : Z := 24.
Definition ENOSPC : Z := 28.
Definition ENAMETOOLONG : Z := 36.

Definition PATH_MAX : nat := 4096.

(** Write-mode flags of an update. *)
Definition BPF_ANY : Z := 0.
Definition BPF_NOEXIST : Z := 1.
Definition BPF_EXIST : Z := 2.

(** Open flags of a retrieval. *)
Definition BPF_F_RDONLY : Z := 8.
Definition BPF_F_WRONLY : Z := 16.

(** A failed call: -1, with the reason in [errno]. *)
Definition fail (e : Z) (w : world) : Z * world := (-1, with_errno e w).

(** *** The caller's memory *)

Definition peek (m : gmap Z Z) (p : Z) : Z := default 0 (m !! p).

Fixpoint read_bytes (m : gmap Z Z) (p : Z) (n : nat) : list Z :=
  match n with
  | O => []
  | S n' => peek m p :: read_bytes m (p + 1) n'
  end.

Fixpoint write_bytes (m : gmap Z Z) (p : Z) (bs : list Z) : gmap Z Z :=
  match bs with
  | [] => m
  | b :: bs' => write_bytes (<[p := b]> m) (p + 1) bs'
  end.

(** A null-terminated string of fewer than [limit] bytes at [p]. *)
Fixpoint read_cstr (limit : nat) (m : gmap Z Z) (p : Z) : option (list Z) :=
  match limit with
  | O => None
  | S limit' =>
      if peek m p =? 0 then Some []
      else cons (peek m p) <$> read_cstr limit' m (p + 1)
  end.

(** *** Key/value stores *)

Fixpoint find_entry (k : list Z) (es : list (list Z * list Z)) : option (list Z) :=
  match es with
  | [] => None
  | e :: es' => if decide (e.1 = k) then Some e.2 else find_entry k es'
  end.

Fixpoint put_entry (k v : list Z) (es : list (list Z * list Z)) : list (list Z * list Z) :=
  match es with
  | [] => [(k, v)]
  | e :: es' => if decide (e.1 = k) then (k, v) :: es' else e :: put_entry k v es'
  end.

Definition remove_entry (k : list Z) (es : list (list Z * list Z)) : list (list Z * list Z) :=
  filter (fun e => e.1 <> k) es.

Definition keys (m : bpf_map) : list (list Z) := fst <$> m_entries m.

(** The key that follows [k]: [None] when [k] is not among [ks],
    [Some None] when it is the last one. *)
Fixpoint successor (k : list Z) (ks : list (list Z)) : option (option (list Z)) :=
  match ks with
  | [] => None
  | k' :: ks' => if decide (k' = k) then Some (head ks') else successor k ks'
  end.

(** The key after [prior]; the first key when there is no prior key or the
    prior key is not in the map. *)
Definition key_after (prior : option (list Z)) (ks : list (list Z)) : option (list Z) :=
  match prior with
  | None => head ks
  | Some k =>
      match successor k ks with
      | None => head ks
      | Some next => next
      end
  end.

Definition with_entries (es : list (list Z * list Z)) (m : bpf_map) : bpf_map :=
  mk_map (m_type m) (m_key_size m) (m_value_size m) (m_max_entries m) (m_flags m) es.

(** *** Descriptors *)

(** The lowest of the [n] descriptors from [from] on that is not open. *)
Fixpoint lowest_free (fds : gmap Z nat) (from : Z) (n : nat) : option Z :=
  match n with
  | O => None
  | S n' =>
      match fds !! from with
      | None => Some from
      | Some _ => lowest_free fds (from + 1) n'
      end
  end.

(** The descriptor the next object gets: the lowest one that is not open,
    within the limit of the process and the range of [int]. *)
Definition unused_fd (w : world) : option Z :=
  match lowest_free (fds w) 0 (nofile w) with
  | None => None
  | Some fd => if fd <? 2 ^ 31 then Some fd else None
  end.

(** The object a descriptor names, with its id. *)
Definition object_at (w : world) (fd : Z) : option (nat * object) :=
  id ← fds w !! fd;
  o ← objs w !! id;
  Some (id, o).

(** A new descriptor for the object [id]. *)
Definition install (id : nat) (w : world) : Z * world :=
  match unused_fd w with
  | None => fail EMFILE w
  | Some fd => (fd, with_fds (<[fd := id]> (fds w)) w)
  end.

(** *** The strict check of the attribute *)

(** Modelled from the spec: "a strict all-fields-considered size/zero
    check": the size is that of the attribute, the members the command
    reads lie within it, and every byte outside them is zero. *)
Definition attr_ok (reads : list bpf_attr.field) (attr : bpf_attr.t) (size : Z) : bool :=
  (size =? Z.of_nat (length attr))
  && forallb (fun f => (bpf_attr.offset f + bpf_attr.width f <=? length attr)%nat) reads
  && forallb (fun i => bpf_attr.covered reads i || (bpf_attr.byte attr i =? 0))
       (seq 0 (length attr)).

(** The members each command reads. *)
Definition reads (cmd : Z) : list bpf_attr.field :=
  if cmd =? BPF_MAP_CREATE then
    [bpf_attr.map_type; bpf_attr.key_size; bpf_attr.value_size; bpf_attr.max_entries;
     bpf_attr.map_flags]
  else if cmd =? BPF_MAP_LOOKUP_ELEM then [bpf_attr.map_fd; bpf_attr.key; bpf_attr.value]
  else if cmd =? BPF_MAP_UPDATE_ELEM then
    [bpf_attr.map_fd; bpf_attr.key; bpf_attr.value; bpf_attr.flags]
  else if cmd =? BPF_MAP_DELETE_ELEM then [bpf_attr.map_fd; bpf_attr.key]
  else if cmd =? BPF_MAP_GET_NEXT_KEY then [bpf_attr.map_fd; bpf_attr.key; bpf_attr.next_key]
  else if cmd =? BPF_OBJ_PIN then [bpf_attr.pathname; bpf_attr.bpf_fd]
  else if cmd =? BPF_OBJ_GET then [bpf_attr.pathname; bpf_attr.file_flags]
  else if cmd =? BPF_PROG_ATTACH then
    [bpf_attr.target_fd; bpf_attr.attach_bpf_fd; bpf_attr.attach_type]
  else if cmd =? BPF_PROG_DETACH then [bpf_attr.target_fd; bpf_attr.attach_type]
  else [].

(** *** The commands *)

Definition store_object (id : nat) (o : object) (w : world) : world :=
  with_objs (<[id := o]> (objs w)) w.

(** Modelled from the spec (createMap): a new map object and a new
    descriptor for it; refused when the type or a size is zero. *)
Definition create_map (ty : Z) (ks vs me : nat) (fl : Z) (w : world) : Z * world :=
  if (ty =? 0) || (ks =? 0)%nat || (vs =? 0)%nat || (me =? 0)%nat then fail EINVAL w
  else
    match unused_fd w with
    | None => fail EMFILE w
    | Some fd =>
        (fd, with_fds (<[fd := length (objs w)]> (fds w))
               (with_objs (objs w ++ [Map (mk_map ty ks vs me fl [])]) w))
    end.

(** Modelled from the spec (writeEntry): the key and the value are read
    from the caller's buffers at [kp] and [vp]; refused for an unknown
    write mode, for a mode the presence of the key contradicts, and when
    the map is full. *)
Definition update_elem (fd kp vp fl : Z) (w : world) : Z * world :=
  match object_at w fd with
  | None => fail EBADF w
  | Some (id, Map m) =>
      let k := read_bytes (mem w) kp (m_key_size m) in
      let v := read_bytes (mem w) vp (m_value_size m) in
      if BPF_EXIST <? fl then fail EINVAL w
      else
        match find_entry k (m_entries m) with
        | Some _ =>
            if fl =? BPF_NOEXIST then fail EEXIST w
            else (0, store_object id (Map (with_entries (put_entry k v (m_entries m)) m)) w)
        | None =>
            if fl =? BPF_EXIST then fail ENOENT w
            else if (m_max_entries m <=? length (m_entries m))%nat then fail ENOSPC w
            else (0, store_object id (Map (with_entries (put_entry k v (m_entries m)) m)) w)
        end
  | Some _ => fail EINVAL w
  end.

(** Modelled from the spec (readEntry): the value is copied to the
    caller's buffer at [vp]; "not found" when the key is absent. *)
Definition lookup_elem (fd kp vp : Z) (w : world) : Z * world :=
  match object_at w fd with
  | None => fail EBADF w
  | Some (_, Map m) =>
      let k := read_bytes (mem w) kp (m_key_size m) in
      match find_entry k (m_entries m) with
      | None => fail ENOENT w
      | Some v => (0, with_mem (write_bytes (mem w) vp v) w)
      end
  | Some _ => fail EINVAL w
  end.

(** Modelled from the spec (deleteEntry): "not found" when the key is
    absent. *)
Definition delete_elem (fd kp : Z) (w : world) : Z * world :=
  match object_at w fd with
  | None => fail EBADF w
  | Some (id, Map m) =>
      let k := read_bytes (mem w) kp (m_key_size m) in
      match find_entry k (m_entries m) with
      | None => fail ENOENT w
      | Some _ => (0, store_object id (Map (with_entries (remove_entry k (m_entries m)) m)) w)
      end
  | Some _ => fail EINVAL w
  end.

(** Modelled from the spec (getNextKey): the key after the one in the
    caller's buffer at [kp] (the first key for a null pointer), copied to
    the caller's buffer at [np]; "not found" when there is none. *)
Definition get_next_key (fd kp np : Z) (w : world) : Z * world :=
  match object_at w fd with
  | None => fail EBADF w
  | Some (_, Map m) =>
      let prior := if kp =? NULL then None else Some (read_bytes (mem w) kp (m_key_size m)) in
      match key_after prior (keys m) with
      | None => fail ENOENT w
      | Some k => (0, with_mem (write_bytes (mem w) np k) w)
      end
  | Some _ => fail EINVAL w
  end.

(** Modelled from the spec (pin): pin a map or a program at the
    null-terminated path in the caller's buffer at [pp]; refused when the
    path exists. *)
Definition pin_object (pp fd : Z) (w : world) : Z * world :=
  match object_at w fd with
  | None => fail EBADF w
  | Some (_, Cgroup _) => fail EINVAL w
  | Some (id, _) =>
      match read_cstr PATH_MAX (mem w) pp with
      | None => fail ENAMETOOLONG w
      | Some path =>
          match pins w !! path with
          | Some _ => fail EEXIST w
          | None => (0, with_pins (<[path := id]> (pins w)) w)
          end
      end
  end.

(** Modelled from the spec (retrieve): a new descriptor for the object
    pinned at a path; "not found" when the path is absent. *)
Definition get_object (pp fl : Z) (w : world) : Z * world :=
  if negb (Z.land fl (Z.lnot (Z.lor BPF_F_RDONLY BPF_F_WRONLY)) =? 0) then fail EINVAL w
  else
    match read_cstr PATH_MAX (mem w) pp with
    | None => fail ENAMETOOLONG w
    | Some path =>
        match pins w !! path with
        | None => fail ENOENT w
        | Some id => install id w
        end
    end.

(** Modelled from the spec (attachProgram): attach a program to an attach
    point of a control group; refused when the point is occupied. *)
Definition attach_prog (cgfd pfd ty : Z) (w : world) : Z * world :=
  match object_at w cgfd with
  | None => fail EBADF w
  | Some (cg, Cgroup attached) =>
      match object_at w pfd with
      | None => fail EBADF w
      | Some (prog, Prog) =>
          match attached !! ty with
          | Some _ => fail EBUSY w
          | None => (0, store_object cg (Cgroup (<[ty := prog]> attached)) w)
          end
      | Some _ => fail EINVAL w
      end
  | Some _ => fail EINVAL w
  end.

(** Modelled from the spec (detachProgram): detach the program of an
    attach point of a control group; "not found" when nothing is
    attached. *)
Definition detach_prog (cgfd ty : Z) (w : world) : Z * world :=
  match object_at w cgfd with
  | None => fail EBADF w
  | Some (cg, Cgroup attached) =>
      match attached !! ty with
      | None => fail ENOENT w
      | Some _ => (0, store_object cg (Cgroup (delete ty attached)) w)
      end
  | Some _ => fail EINVAL w
  end.

(** Modelled from the spec: the commands on the attribute: each reads its
    members (a descriptor in a [__u32] member is taken as an [int]) and
    does the above. *)
Definition map_create (attr : bpf_attr.t) (w : world) : Z * world :=
  create_map (bpf_attr.get bpf_attr.map_type attr)
    (Z.to_nat (bpf_attr.get bpf_attr.key_size attr))
    (Z.to_nat (bpf_attr.get bpf_attr.value_size attr))
    (Z.to_nat (bpf_attr.get bpf_attr.max_entries attr))
    (bpf_attr.get bpf_attr.map_flags attr) w.

Definition map_update_elem (attr : bpf_attr.t) (w : world) : Z * world :=
  update_elem (to_int (bpf_attr.get bpf_attr.map_fd attr)) (bpf_attr.get bpf_attr.key attr)
    (bpf_attr.get bpf_attr.value attr) (bpf_attr.get bpf_attr.flags attr) w.

Definition map_lookup_elem (attr : bpf_attr.t) (w : world) : Z * world :=
  lookup_elem (to_int (bpf_attr.get bpf_attr.map_fd attr)) (bpf_attr.get bpf_attr.key attr)
    (bpf_attr.get bpf_attr.value attr) w.

Definition map_delete_elem (attr : bpf_attr.t) (w : world) : Z * world :=
  delete_elem (to_int (bpf_attr.get bpf_attr.map_fd attr)) (bpf_attr.get bpf_attr.key attr) w.

Definition map_get_next_key (attr : bpf_attr.t) (w : world) : Z * world :=
  get_next_key (to_int (bpf_attr.get bpf_attr.map_fd attr)) (bpf_attr.get bpf_attr.key attr)
    (bpf_attr.get bpf_attr.next_key attr) w.

Definition obj_pin (attr : bpf_attr.t) (w : world) : Z * world :=
  pin_object (bpf_attr.get bpf_attr.pathname attr)
    (to_int (bpf_attr.get bpf_attr.bpf_fd attr)) w.

Definition obj_get (attr : bpf_attr.t) (w : world) : Z * world :=
  get_object (bpf_attr.get bpf_attr.pathname attr) (bpf_attr.get bpf_attr.file_flags attr) w.

Definition prog_attach (attr : bpf_attr.t) (w : world) : Z * world :=
  attach_prog (to_int (bpf_attr.get bpf_attr.target_fd attr))
    (to_int (bpf_attr.get bpf_attr.attach_bpf_fd attr))
    (bpf_attr.get bpf_attr.attach_type attr) w.

Definition prog_detach (attr : bpf_attr.t) (w : world) : Z * world :=
  detach_prog (to_int (bpf_attr.get bpf_attr.target_fd attr))
    (bpf_attr.get bpf_attr.attach_type attr) w.

(** Modelled from the spec: the multiplexed call: the command, once the
    attribute has passed the strict check. *)
Definition dispatch (cmd : Z) (attr : bpf_attr.t) (w : world) : Z * world :=
  if cmd =? BPF_MAP_CREATE then map_create attr w
  else if cmd =? BPF_MAP_LOOKUP_ELEM then map_lookup_elem attr w
  else if cmd =? BPF_MAP_UPDATE_ELEM then map_update_elem attr w
  else if cmd =? BPF_MAP_DELETE_ELEM then map_delete_elem attr w
  else if cmd =? BPF_MAP_GET_NEXT_KEY then map_get_next_key attr w
  else if cmd =? BPF_OBJ_PIN then obj_pin attr w
  else if cmd =? BPF_OBJ_GET then obj_get attr w
  else if cmd =? BPF_PROG_ATTACH then prog_attach attr w
  else if cmd =? BPF_PROG_DETACH then prog_detach attr w
  else fail EINVAL w.

Definition bpf (cmd : Z) (attr : bpf_attr.t) (size : Z) (w : world) : Z * world :=
  if negb (attr_ok (reads cmd) attr size) then fail E2BIG w
  else dispatch cmd attr w.

Definition close (fd : Z) (w : world) : Z * world :=
  match fds w !! fd with
  | None => fail EBADF w
  | Some _ => (0, with_fds (delete fd (fds w)) w)
  end.

(** Modelled from the spec: the operating system as a handler of
    requests. *)
Definition syscall (q : request) (w : world) : Z * world :=
  match q with
  | sys_bpf cmd attr size => bpf cmd attr size w
  | sys_close fd => close fd w
  end.

(** *** Views of the world *)

(** The map a descriptor names. *)
Definition map_at (w : world) (fd : Z) : option bpf_map :=
  match object_at w fd with
  | Some (_, Map m) => Some m
  | _ => None
  end.

(** The programs attached to the control group a descriptor names. *)
Definition attached_at (w : world) (fd : Z) : option (gmap Z nat) :=
  match object_at w fd with
  | Some (_, Cgroup attached) => Some attached
  | _ => None
  end.

(** Keys are distinct and entries have the sizes of their map. *)
Definition wf_map (m : bpf_map) : Prop :=
  NoDup (keys m)
  /\ Forall (fun e => length e.1 = m_key_size m /\ length e.2 = m_value_size m) (m_entries m).

(** The invariant of the kernel's objects: every map is well formed. *)
Definition wf (w : world) : Prop :=
  Forall (fun o => match o with Map m => wf_map m | _ => True end) (objs w).

(** A world with nothing in it. *)
Definition boot : world := mk_world ∅ 0 ∅ [] ∅ 1024.

(** A world for examples. The caller's memory holds a 4-byte key at
    address 4096, an 8-byte value at 8192 and the path "/m" at 12288;
    descriptor 3 names a loaded program, descriptor 4 a control group with
    nothing attached, and descriptor 5 a map with the keys 1, 2 and 3. *)
Definition sample_map : bpf_map :=
  mk_map 1 4 8 10 0
    [([1; 0; 0; 0], [10; 0; 0; 0; 0; 0; 0; 0]);
     ([2; 0; 0; 0], [20; 0; 0; 0; 0; 0; 0; 0]);
     ([3; 0; 0; 0], [30; 0; 0; 0; 0; 0; 0; 0])].

Definition sample : world :=
  mk_world
    (write_bytes (write_bytes (write_bytes ∅ 4096 [9; 0; 0; 0]) 8192 [1; 2; 3; 4; 5; 6; 7; 8])
       12288 [47; 109; 0])
    0
    (<[5 := 2%nat]> (<[4 := 1%nat]> (<[3 := 0%nat]> ∅)))
    [Prog; Cgroup ∅; Map sample_map]
    ∅
    1024.

End Kernel.

(** ** Support levels and the guards of tests *)
Module BpfLevel.

(** [enum class BpfLevel]. *)
Inductive t : Type :=
  | NONE
  | BASIC
  | EXTENDED.

End BpfLevel.

(** What a guard at the head of a test does: it returns from the test,
    after the messages it has logged, or lets the test go on. *)
Inductive guard : Type :=
  | Returns (logged : list string)
  | GoesOn.

(** [SKIP_IF_BPF_NOT_SUPPORTED], for the level that [getBpfSupportLevel()]
    (declared here, defined elsewhere) answers: at level [NONE] it logs a
    message and returns. *)
Definition SKIP_IF_BPF_NOT_SUPPORTED (level : BpfLevel.t) : guard :=
  match level with
  | BpfLevel.NONE =>
      Returns [String.append "This test is skipped since bpf is not available"
                 (String (Ascii.ascii_of_nat 10) EmptyString)]
  | _ => GoesOn
  end.

(** [SKIP_IF_BPF_SUPPORTED]: at every level but [NONE] it returns, without a
    message. *)
Definition SKIP_IF_BPF_SUPPORTED (level : BpfLevel.t) : guard :=
  match level with
  | BpfLevel.NONE => GoesOn
  | _ => Returns []
  end.

(** A test whose body [body] comes after a guard: whether the body ran,
    and what was logged before it. *)
Definition guarded {A : Type} (g : guard) (body : A) : option A * list string :=
  match g with
  | Returns logged => (None, logged)
  | GoesOn => (Some body, [])
  end.

(** ** The operations of BpfUtils.h *)

(** A call of one of the operations, with its arguments. *)
Inductive operation : Type :=
  | CreateMap (map_type key_size value_size max_entries map_flags : Z)
  | WriteToMapEntry (map_fd : unique_fd.t) (key value flags : Z)
  | FindMapEntry (map_fd : unique_fd.t) (key value : Z)
  | DeleteMapEntry (map_fd : unique_fd.t) (key : Z)
  | GetNextMapKey (map_fd : unique_fd.t) (key next_key : Z)
  | GetFirstMapKey (map_fd : unique_fd.t) (firstKey : Z)
  | BpfFdPin (map_fd : unique_fd.t) (pathname : Z)
  | BpfFdGet (pathname flag : Z)
  | MapRetrieve (pathname flag : Z)
  | AttachProgram (type : Z) (prog_fd cg_fd : unique_fd.t)
  | DetachProgram (type : Z) (cg_fd : unique_fd.t).

(** The command of an operation. *)
Definition command (op : operation) : Z :=
  match op with
  | CreateMap _ _ _ _ _ => BPF_MAP_CREATE
  | WriteToMapEntry _ _ _ _ => BPF_MAP_UPDATE_ELEM
  | FindMapEntry _ _ _ => BPF_MAP_LOOKUP_ELEM
  | DeleteMapEntry _ _ => BPF_MAP_DELETE_ELEM
  | GetNextMapKey _ _ _ | GetFirstMapKey _ _ => BPF_MAP_GET_NEXT_KEY
  | BpfFdPin _ _ => BPF_OBJ_PIN
  | BpfFdGet _ _ | MapRetrieve _ _ => BPF_OBJ_GET
  | AttachProgram _ _ _ => BPF_PROG_ATTACH
  | DetachProgram _ _ => BPF_PROG_DETACH
  end.

(** The members of [bpf_attr] that the operation sets explicitly. *)
Definition explicitly_set (op : operation) : list bpf_attr.field :=
  match op with
  | CreateMap _ _ _ _ _ =>
      [bpf_attr.map_type; bpf_attr.key_size; bpf_attr.value_size; bpf_attr.max_entries;
       bpf_attr.map_flags]
  | WriteToMapEntry _ _ _ _ => [bpf_attr.map_fd; bpf_attr.key; bpf_attr.value; bpf_attr.flags]
  | FindMapEntry _ _ _ => [bpf_attr.map_fd; bpf_attr.key; bpf_attr.value]
  | DeleteMapEntry _ _ => [bpf_attr.map_fd; bpf_attr.key]
  | GetNextMapKey _ _ _ | GetFirstMapKey _ _ =>
      [bpf_attr.map_fd; bpf_attr.key; bpf_attr.next_key]
  | BpfFdPin _ _ => [bpf_attr.pathname; bpf_attr.bpf_fd]
  | BpfFdGet _ _ | MapRetrieve _ _ => [bpf_attr.pathname; bpf_attr.file_flags]
  | AttachProgram _ _ _ => [bpf_attr.target_fd; bpf_attr.attach_bpf_fd; bpf_attr.attach_type]
  | DetachProgram _ _ => [bpf_attr.target_fd; bpf_attr.attach_type]
  end.

(** The caller-owned handles an operation is given. *)
Definition handles (op : operation) : list unique_fd.t :=
  match op with
  | WriteToMapEntry h _ _ _ | FindMapEntry h _ _ | DeleteMapEntry h _
  | GetNextMapKey h _ _ | GetFirstMapKey h _ | BpfFdPin h _ | DetachProgram _ h => [h]
  | AttachProgram _ p c => [p; c]
  | CreateMap _ _ _ _ _ | BpfFdGet _ _ | MapRetrieve _ _ => []
  end.

Section BpfUtils.

(** [sizeof(bpf_attr)], fixed by the kernel header the file is compiled
    against. *)
Variable sizeof_bpf_attr : nat.

(** [bpf(cmd, attr)]: [return syscall(__NR_bpf, cmd, &attr, sizeof(attr))],
    the [long] converted to the [int] the function returns. The attribute
    is a [const bpf_attr&], so [sizeof(attr)] is [sizeof(bpf_attr)]. *)
Definition bpf (cmd : Z) (attr : bpf_attr.t) : os Z :=
  Syscall (sys_bpf cmd attr (Z.of_nat sizeof_bpf_attr)) (fun r => Ret (to_int r)).

(** [createMap]: the [uint32_t] arguments go to [__u32] members. *)
Definition createMap (map_type key_size value_size max_entries map_flags : Z) : os Z :=
  bpf BPF_MAP_CREATE
    (bpf_attr.init sizeof_bpf_attr
       [(bpf_attr.map_type, map_type);
        (bpf_attr.key_size, key_size);
        (bpf_attr.value_size, value_size);
        (bpf_attr.max_entries, max_entries);
        (bpf_attr.map_flags, map_flags)]).

(** [writeToMapEntry]: the descriptor is cast to [__u32], the buffers are
    passed by address. *)
Definition writeToMapEntry (map_fd : unique_fd.t) (key value flags : Z) : os Z :=
  bpf BPF_MAP_UPDATE_ELEM
    (bpf_attr.init sizeof_bpf_attr
       [(bpf_attr.map_fd, u32 (unique_fd.get map_fd));
        (bpf_attr.key, ptr_to_u64 key);
        (bpf_attr.value, ptr_to_u64 value);
        (bpf_attr.flags, flags)]).

(** [findMapEntry]: [value] is the address of the output buffer. *)
Definition findMapEntry (map_fd : unique_fd.t) (key value : Z) : os Z :=
  bpf BPF_MAP_LOOKUP_ELEM
    (bpf_attr.init sizeof_bpf_attr
       [(bpf_attr.map_fd, u32 (unique_fd.get map_fd));
        (bpf_attr.key, ptr_to_u64 key);
        (bpf_attr.value, ptr_to_u64 value)]).

(** [deleteMapEntry]. *)
Definition deleteMapEntry (map_fd : unique_fd.t) (key : Z) : os Z :=
  bpf BPF_MAP_DELETE_ELEM
    (bpf_attr.init sizeof_bpf_attr
       [(bpf_attr.map_fd, u32 (unique_fd.get map_fd));
        (bpf_attr.key, ptr_to_u64 key)]).

(** [getNextMapKey]: [next_key] is the address of the output buffer. *)
Definition getNextMapKey (map_fd : unique_fd.t) (key next_key : Z) : os Z :=
  bpf BPF_MAP_GET_NEXT_KEY
    (bpf_attr.init sizeof_bpf_attr
       [(bpf_attr.map_fd, u32 (unique_fd.get map_fd));
        (bpf_attr.key, ptr_to_u64 key);
        (bpf_attr.next_key, ptr_to_u64 next_key)]).

(** [getFirstMapKey]: [return getNextMapKey(map_fd, NULL, firstKey)]. *)
Definition getFirstMapKey (map_fd : unique_fd.t) (firstKey : Z) : os Z :=
  getNextMapKey map_fd NULL firstKey.

(** [bpfFdPin]: [pathname] is the address of a null-terminated string. *)
Definition bpfFdPin (map_fd : unique_fd.t) (pathname : Z) : os Z :=
  bpf BPF_OBJ_PIN
    (bpf_attr.init sizeof_bpf_attr
       [(bpf_attr.pathname, ptr_to_u64 pathname);
        (bpf_attr.bpf_fd, u32 (unique_fd.get map_fd))]).

(** [bpfFdGet]. *)
Definition bpfFdGet (pathname flag : Z) : os Z :=
  bpf BPF_OBJ_GET
    (bpf_attr.init sizeof_bpf_attr
       [(bpf_attr.pathname, ptr_to_u64 pathname);
        (bpf_attr.file_flags, flag)]).

(** [mapRetrieve]: [return bpfFdGet(pathname, flag)]. *)
Definition mapRetrieve (pathname flag : Z) : os Z := bpfFdGet pathname flag.

(** [attachProgram]: the control group is the target. *)
Definition attachProgram (type : Z) (prog_fd cg_fd : unique_fd.t) : os Z :=
  bpf BPF_PROG_ATTACH
    (bpf_attr.init sizeof_bpf_attr
       [(bpf_attr.target_fd, u32 (unique_fd.get cg_fd));
        (bpf_attr.attach_bpf_fd, u32 (unique_fd.get prog_fd));
        (bpf_attr.attach_type, type)]).

(** [detachProgram]. *)
Definition detachProgram (type : Z) (cg_fd : unique_fd.t) : os Z :=
  bpf BPF_PROG_DETACH
    (bpf_attr.init sizeof_bpf_attr
       [(bpf_attr.target_fd, u32 (unique_fd.get cg_fd));
        (bpf_attr.attach_type, type)]).

(** The computation of a call. *)
Definition perform (op : operation) : os Z :=
  match op with
  | CreateMap map_type key_size value_size max_entries map_flags =>
      createMap map_type key_size value_size max_entries map_flags
  | WriteToMapEntry map_fd key value flags => writeToMapEntry map_fd key value flags
  | FindMapEntry map_fd key value => findMapEntry map_fd key value
  | DeleteMapEntry map_fd key => deleteMapEntry map_fd key
  | GetNextMapKey map_fd key next_key => getNextMapKey map_fd key next_key
  | GetFirstMapKey map_fd firstKey => getFirstMapKey map_fd firstKey
  | BpfFdPin map_fd pathname => bpfFdPin map_fd pathname
  | BpfFdGet pathname flag => bpfFdGet pathname flag
  | MapRetrieve pathname flag => mapRetrieve pathname flag
  | AttachProgram type prog_fd cg_fd => attachProgram type prog_fd cg_fd
  | DetachProgram type cg_fd => detachProgram type cg_fd
  end.

(** The attribute of the first request of a computation. *)
Definition attribute (p : os Z) : option bpf_attr.t :=
  match p with
  | Syscall (sys_bpf _ attr _) _ => Some attr
  | _ => None
  end.

(** The first request of a computation. *)
Definition first_request (p : os Z) : option request :=
  match p with
  | Syscall q _ => Some q
  | Ret _ => None
  end.

(** The size argument of the first request of a computation. *)
Definition size_argument (p : os Z) : option Z :=
  match p with
  | Syscall (sys_bpf _ _ size) _ => Some size
  | _ => None
  end.


(** Modelled from the spec: the iteration protocol of a caller (section
    4.1), which is not code of this repository: ask for the first key with
    no prior key, then keep asking for the key after the previously returned
    one until a call fails. [next] is the buffer the kernel fills, [cur] the
    buffer in which the caller keeps the previously returned key, both of
    [key_size] bytes. The result is the list of the keys visited and the
    error of the call that ended the iteration ([None] when [fuel] calls
    were not enough to reach it). *)
Fixpoint iterate_from (fuel : nat) (map_fd : unique_fd.t) (cur next : Z) (key_size : nat)
    (w : Kernel.world) : list (list Z) * option Z :=
  match fuel with
  | O => ([], None)
  | S fuel' =>
      let (r, w1) := run Kernel.syscall (getNextMapKey map_fd cur next) w in
      if r <? 0 then ([], Some (Kernel.errno w1))
      else
        let k := Kernel.read_bytes (Kernel.mem w1) next key_size in
        let w2 := Kernel.with_mem (Kernel.write_bytes (Kernel.mem w1) cur k) w1 in
        let (ks, e) := iterate_from fuel' map_fd cur next key_size w2 in
        (k :: ks, e)
  end.

(** Modelled from the spec: the whole iteration, "starting from no prior
    key". *)
Definition iterate (fuel : nat) (map_fd : unique_fd.t) (cur next : Z) (key_size : nat)
    (w : Kernel.world) : list (list Z) * option Z :=
  match fuel with
  | O => ([], None)
  | S fuel' =>
      let (r, w1) := run Kernel.syscall (getFirstMapKey map_fd next) w in
      if r <? 0 then ([], Some (Kernel.errno w1))
      else
        let k := Kernel.read_bytes (Kernel.mem w1) next key_size in
        let w2 := Kernel.with_mem (Kernel.write_bytes (Kernel.mem w1) cur k) w1 in
        let (ks, e) := iterate_from fuel' map_fd cur next key_size w2 in
        (k :: ks, e)
  end.

(** ** Facts about machine integers *)

Lemma to_int_id (x : Z) : is_int x -> to_int x = x.
Proof.
  unfold is_int, to_int. intros Hx.
  rewrite Z.mod_small by lia. lia.
Qed.

Lemma to_int_range (x : Z) : is_int (to_int x).
Proof.
  unfold is_int, to_int.
  pose proof (Z.mod_pos_bound (x + 2 ^ 31) (2 ^ 32)). lia.
Qed.

Lemma to_int_u32 (x : Z) : is_int x -> to_int (u32 x) = x.
Proof.
  unfold is_int, to_int, u32. intros Hx.
  rewrite Zplus_mod_idemp_l.
  rewrite Z.mod_small by lia. lia.
Qed.

Lemma u32_idem (x : Z) : u32 x mod 2 ^ 32 = u32 x.
Proof. unfold u32. apply Z.mod_mod. lia. Qed.

Lemma u32_u32 (x : Z) : u32 (u32 x) = u32 x.
Proof. apply u32_idem. Qed.

Lemma u32_id (x : Z) : is_u32 x -> u32 x = x.
Proof. unfold is_u32, u32. intros Hx. apply Z.mod_small. lia. Qed.

Lemma u64_ptr_to_u64 (x : Z) : u64 (ptr_to_u64 x) = ptr_to_u64 x.
Proof. unfold ptr_to_u64, u64. apply Z.mod_mod. lia. Qed.

Lemma ptr_to_u64_id (x : Z) : is_ptr x -> ptr_to_u64 x = x.
Proof. unfold is_ptr, ptr_to_u64, u64. intros Hx. apply Z.mod_small. lia. Qed.

(** ** Facts about the byte image of [bpf_attr] *)

Lemma length_store (off n : nat) (v : Z) (a : bpf_attr.t) :
  length (bpf_attr.store off n v a) = length a.
Proof.
  revert off v. induction n as [|n IH]; intros off v; cbn [bpf_attr.store]; [done|].
  by rewrite length_insert, IH.
Qed.

Lemma lookup_store_outside (off n : nat) (v : Z) (a : bpf_attr.t) (i : nat) :
  (i < off \/ off + n <= i)%nat -> bpf_attr.store off n v a !! i = a !! i.
Proof.
  revert off v. induction n as [|n IH]; intros off v Hi; cbn [bpf_attr.store]; [done|].
  rewrite list_lookup_insert_ne by lia. apply IH. lia.
Qed.

Lemma load_ext (off n : nat) (a b : bpf_attr.t) :
  (forall i : nat, (off <= i < off + n)%nat -> a !! i = b !! i) ->
  bpf_attr.load off n a = bpf_attr.load off n b.
Proof.
  revert off. induction n as [|n IH]; intros off H; cbn [bpf_attr.load]; [done|].
  rewrite (IH (S off)) by (intros i Hi; apply H; lia).
  unfold bpf_attr.byte. rewrite (H off) by lia. done.
Qed.

Lemma load_store_eq (off n : nat) (v : Z) (a : bpf_attr.t) :
  (off + n <= length a)%nat ->
  bpf_attr.load off n (bpf_attr.store off n v a) = v mod 2 ^ (8 * Z.of_nat n).
Proof.
  revert off v. induction n as [|n IH]; intros off v Hlen.
  - simpl. by rewrite Z.mod_1_r.
  - cbn [bpf_attr.load bpf_attr.store].
    unfold bpf_attr.byte at 1.
    rewrite list_lookup_insert_eq by (rewrite length_store; lia). cbn [default].
    rewrite (load_ext (S off) n _ (bpf_attr.store (S off) n (v / 256) a)).
    2:{ intros i Hi. apply list_lookup_insert_ne. lia. }
    rewrite IH by lia.
    replace (8 * Z.of_nat (S n)) with (8 + 8 * Z.of_nat n) by lia.
    rewrite Z.pow_add_r by lia.
    change (2 ^ 8) with 256.
    rewrite (Z.rem_mul_r v 256 (2 ^ (8 * Z.of_nat n))) by lia. done.
Qed.

Lemma load_store_disjoint (off n off' n' : nat) (v : Z) (a : bpf_attr.t) :
  (off + n <= off' \/ off' + n' <= off)%nat ->
  bpf_attr.load off' n' (bpf_attr.store off n v a) = bpf_attr.load off' n' a.
Proof.
  intros H. apply load_ext. intros i Hi. apply lookup_store_outside. lia.
Qed.

Lemma load_zero (off n size : nat) : bpf_attr.load off n (bpf_attr.zero size) = 0.
Proof.
  revert off. induction n as [|n IH]; intros off; cbn [bpf_attr.load]; [done|].
  rewrite IH. unfold bpf_attr.zero, bpf_attr.byte.
  destruct (decide (off < size)%nat) as [Hlt|Hge].
  - by rewrite lookup_replicate_2.
  - by rewrite lookup_ge_None_2 by (rewrite length_replicate; lia).
Qed.

Lemma length_set (f : bpf_attr.field) (v : Z) (a : bpf_attr.t) :
  length (bpf_attr.set f v a) = length a.
Proof. apply length_store. Qed.

Lemma length_foldl_set (l : list (bpf_attr.field * Z)) (a : bpf_attr.t) :
  length (foldl (fun a fv => bpf_attr.set fv.1 fv.2 a) a l) = length a.
Proof.
  revert a. induction l as [|fv l IH]; intros a; cbn [foldl]; [done|].
  by rewrite IH, length_set.
Qed.

Lemma length_init (size : nat) (l : list (bpf_attr.field * Z)) :
  length (bpf_attr.init size l) = size.
Proof.
  unfold bpf_attr.init. rewrite length_foldl_set.
  apply length_replicate.
Qed.

Lemma get_foldl_set (f : bpf_attr.field) (l : list (bpf_attr.field * Z)) (a : bpf_attr.t) :
  bpf_attr.compatible f l = true ->
  (bpf_attr.offset f + bpf_attr.width f <= length a)%nat ->
  bpf_attr.get f (foldl (fun a fv => bpf_attr.set fv.1 fv.2 a) a l)
  = match bpf_attr.assigned f l with
    | Some v => v mod 2 ^ (8 * Z.of_nat (bpf_attr.width f))
    | None => bpf_attr.get f a
    end.
Proof.
  revert a. induction l as [|[g v] l IH]; intros a Hc Hfit; [done|].
  cbn [foldl bpf_attr.assigned bpf_attr.compatible forallb fst snd] in *.
  apply andb_prop in Hc as [Hg Hc].
  rewrite IH by (try rewrite length_set; done).
  destruct (bpf_attr.assigned f l) as [x|]; [done|].
  destruct (decide (g = f)) as [->|Hne].
  - apply load_store_eq. done.
  - rewrite bool_decide_eq_false_2 in Hg by done. cbn [orb] in Hg.
    unfold bpf_attr.disjoint in Hg.
    apply load_store_disjoint.
    apply orb_prop in Hg as [Hg|Hg]; apply Nat.leb_le in Hg; lia.
Qed.

(** What the kernel reads in a member of an initialised attribute. *)
Lemma get_init (f : bpf_attr.field) (size : nat) (l : list (bpf_attr.field * Z)) :
  bpf_attr.compatible f l = true ->
  bpf_attr.fits size f = true ->
  bpf_attr.get f (bpf_attr.init size l)
  = match bpf_attr.assigned f l with
    | Some v => v mod 2 ^ (8 * Z.of_nat (bpf_attr.width f))
    | None => 0
    end.
Proof.
  intros Hc Hfit. unfold bpf_attr.init.
  apply Nat.leb_le in Hfit.
  rewrite get_foldl_set; [|done|unfold bpf_attr.zero; rewrite length_replicate; done].
  destruct (bpf_attr.assigned f l); [done|]. apply load_zero.
Qed.

Lemma lookup_set_outside (f : bpf_attr.field) (v : Z) (a : bpf_attr.t) (i : nat) :
  bpf_attr.inside f i = false -> bpf_attr.set f v a !! i = a !! i.
Proof.
  unfold bpf_attr.inside, bpf_attr.set. intros H.
  apply lookup_store_outside.
  apply andb_false_iff in H as [H|H].
  - apply Nat.leb_gt in H. lia.
  - apply Nat.ltb_ge in H. lia.
Qed.

Lemma lookup_foldl_set_outside (l : list (bpf_attr.field * Z)) (a : bpf_attr.t) (i : nat) :
  bpf_attr.covered (fst <$> l) i = false ->
  foldl (fun a fv => bpf_attr.set fv.1 fv.2 a) a l !! i = a !! i.
Proof.
  revert a. induction l as [|[g v] l IH]; intros a Hc; [done|].
  cbn [fmap list_fmap bpf_attr.covered existsb fst foldl snd] in *.
  apply orb_false_iff in Hc as [Hg Hc].
  rewrite IH by done. by apply lookup_set_outside.
Qed.

(** An initialised attribute is zero outside the designated members. *)
Lemma zero_outside_init (size : nat) (l : list (bpf_attr.field * Z)) :
  bpf_attr.zero_outside (fst <$> l) (bpf_attr.init size l).
Proof.
  intros i Hi Hc. rewrite length_init in Hi.
  unfold bpf_attr.init. rewrite lookup_foldl_set_outside by done.
  by apply lookup_replicate_2.
Qed.

(** A member disjoint from every designated member reads as zero. *)
Lemma get_zero_outside (f : bpf_attr.field) (fs : list bpf_attr.field) (a : bpf_attr.t) :
  bpf_attr.zero_outside fs a ->
  forallb (fun g => bpf_attr.disjoint g f) fs = true ->
  bpf_attr.get f a = 0.
Proof.
  intros Hz Hd. unfold bpf_attr.get.
  assert (Hbytes : forall i : nat,
    (bpf_attr.offset f <= i < bpf_attr.offset f + bpf_attr.width f)%nat ->
    bpf_attr.byte a i = 0).
  { intros i Hi. unfold bpf_attr.byte.
    destruct (decide (i < length a)%nat) as [Hlt|Hge].
    - rewrite Hz; [done|done|].
      unfold bpf_attr.covered. apply not_true_iff_false. intros Hex.
      apply existsb_exists in Hex as (g & Hg & Hin).
      rewrite forallb_forall in Hd. specialize (Hd g Hg).
      unfold bpf_attr.disjoint in Hd. unfold bpf_attr.inside in Hin.
      apply andb_prop in Hin as [H1 H2].
      apply Nat.leb_le in H1. apply Nat.ltb_lt in H2.
      apply orb_prop in Hd as [Hd|Hd]; apply Nat.leb_le in Hd; lia.
    - by rewrite lookup_ge_None_2 by lia. }
  revert Hbytes. generalize (bpf_attr.offset f).
  induction (bpf_attr.width f) as [|n IH]; intros off Hbytes; cbn [bpf_attr.load]; [done|].
  rewrite Hbytes by lia. rewrite IH; [done|]. intros i Hi. apply Hbytes. lia.
Qed.

Lemma store_app_l (off n : nat) (v : Z) (a b : bpf_attr.t) :
  (off + n <= length a)%nat ->
  bpf_attr.store off n v (a ++ b) = bpf_attr.store off n v a ++ b.
Proof.
  revert off v. induction n as [|n IH]; intros off v Hlen; cbn [bpf_attr.store]; [done|].
  rewrite IH by lia. apply insert_app_l. rewrite length_store. lia.
Qed.

Lemma foldl_set_app_l (l : list (bpf_attr.field * Z)) (a b : bpf_attr.t) :
  forallb (bpf_attr.fits (length a)) (fst <$> l) = true ->
  foldl (fun a fv => bpf_attr.set fv.1 fv.2 a) (a ++ b) l
  = foldl (fun a fv => bpf_attr.set fv.1 fv.2 a) a l ++ b.
Proof.
  revert a. induction l as [|[f v] l IH]; intros a Hfit; [done|].
  cbn [fmap list_fmap forallb fst snd foldl] in *.
  apply andb_prop in Hfit as [Hf Hfit]. apply Nat.leb_le in Hf.
  unfold bpf_attr.set at 2. rewrite store_app_l by done.
  apply IH. by rewrite length_set.
Qed.

(** A larger union only adds zero bytes behind the members. *)
Lemma init_grow (size k : nat) (l : list (bpf_attr.field * Z)) :
  forallb (bpf_attr.fits size) (fst <$> l) = true ->
  bpf_attr.init (size + k) l = bpf_attr.init size l ++ replicate k 0.
Proof.
  intros Hfit. unfold bpf_attr.init, bpf_attr.zero.
  rewrite replicate_add. apply foldl_set_app_l. by rewrite length_replicate.
Qed.

(** ** The shape of every operation: one [bpf] call *)

Lemma perform_shape (op : operation) :
  exists l : list (bpf_attr.field * Z),
    fst <$> l = explicitly_set op
    /\ perform op
       = Syscall (sys_bpf (command op) (bpf_attr.init sizeof_bpf_attr l)
                    (Z.of_nat sizeof_bpf_attr))
           (fun r => Ret (to_int r)).
Proof.
  destruct op; cbn [perform explicitly_set command];
    unfold createMap, writeToMapEntry, findMapEntry, deleteMapEntry, getFirstMapKey,
      getNextMapKey, bpfFdPin, mapRetrieve, bpfFdGet, attachProgram, detachProgram, bpf;
    eexists; (split; [|reflexivity]); reflexivity.
Qed.

Lemma run_perform {W : Type} (handler : request -> W -> Z * W) (op : operation) (w : W) :
  exists attr : bpf_attr.t,
    first_request (perform op) = Some (sys_bpf (command op) attr (Z.of_nat sizeof_bpf_attr))
    /\ run handler (perform op) w
       = (to_int (handler (sys_bpf (command op) attr (Z.of_nat sizeof_bpf_attr)) w).1,
          (handler (sys_bpf (command op) attr (Z.of_nat sizeof_bpf_attr)) w).2)
    /\ trace handler (perform op) w = [sys_bpf (command op) attr (Z.of_nat sizeof_bpf_attr)].
Proof.
  destruct (perform_shape op) as (l & _ & ->).
  exists (bpf_attr.init sizeof_bpf_attr l). cbn [first_request run trace].
  destruct (handler _ w) as [r w']. done.
Qed.

(** ** The attribute of every operation *)

(** C1: for every operation, the attribute handed to the kernel has the
    size of the whole union and is zero in every byte outside the members
    the operation sets explicitly; hence every member of the union that
    shares no byte with those members reads as zero. *)
Theorem attribute_zero_outside_explicitly_set (op : operation) :
  exists (attr : bpf_attr.t) (k : Z -> os Z),
    perform op = Syscall (sys_bpf (command op) attr (Z.of_nat sizeof_bpf_attr)) k
    /\ length attr = sizeof_bpf_attr
    /\ bpf_attr.zero_outside (explicitly_set op) attr
    /\ forall f : bpf_attr.field,
         forallb (fun g => bpf_attr.disjoint g f) (explicitly_set op) = true ->
         bpf_attr.get f attr = 0.
Proof.
  destruct (perform_shape op) as (l & Hl & Hp).
  exists (bpf_attr.init sizeof_bpf_attr l), (fun r => Ret (to_int r)).
  split; [exact Hp|]. split; [apply length_init|].
  assert (Hz : bpf_attr.zero_outside (explicitly_set op) (bpf_attr.init sizeof_bpf_attr l)).
  { rewrite <- Hl. apply zero_outside_init. }
  split; [exact Hz|].
  intros f Hf. by apply (get_zero_outside f (explicitly_set op)).
Qed.

(** ** Results *)

(** C2: every operation makes exactly one request, its [bpf] call; when
    the operating system answers [r] (a value an [int] can hold, as every
    result of bpf(2) is) and leaves the world [w'], the operation returns
    exactly [r] and leaves exactly [w'], last error included: non-negative
    when the call succeeded, negative when it failed. *)
Theorem result_is_the_syscall_result (op : operation) (W : Type)
    (handler : request -> W -> Z * W) (w w' : W) (q : request) (r : Z) :
  first_request (perform op) = Some q ->
  handler q w = (r, w') ->
  is_int r ->
  run handler (perform op) w = (r, w')
  /\ trace handler (perform op) w = [q]
  /\ (0 <= (run handler (perform op) w).1 <-> 0 <= r).
Proof.
  intros Hq Hh Hr.
  destruct (run_perform handler op w) as (attr & Hq' & Hrun & Htrace).
  rewrite Hq' in Hq. injection Hq as <-.
  rewrite Hrun, Htrace, Hh. cbn [fst snd].
  rewrite (to_int_id r Hr). done.
Qed.

(** ** First key *)

(** C8: asking for the first key is asking for the next key with a null
    prior key: the same computation, hence the same request, the same
    result and the same effect under every operating system. *)
Theorem getFirstMapKey_is_getNextMapKey_NULL (map_fd : unique_fd.t) (firstKey : Z) :
  getFirstMapKey map_fd firstKey = getNextMapKey map_fd NULL firstKey
  /\ forall (W : Type) (handler : request -> W -> Z * W) (w : W),
       run handler (getFirstMapKey map_fd firstKey) w
       = run handler (getNextMapKey map_fd NULL firstKey) w
       /\ trace handler (getFirstMapKey map_fd firstKey) w
          = trace handler (getNextMapKey map_fd NULL firstKey) w.
Proof. split; [reflexivity|]. intros W handler w. split; reflexivity. Qed.

(** ** The size argument *)

(** C10: every operation passes [sizeof(bpf_attr)], the size of the whole
    union, as the size argument of the call, together with an attribute of
    that many bytes, whatever the command. *)
Theorem size_argument_is_sizeof_bpf_attr (op : operation) :
  size_argument (perform op) = Some (Z.of_nat sizeof_bpf_attr)
  /\ exists attr : bpf_attr.t,
       attribute (perform op) = Some attr /\ length attr = sizeof_bpf_attr.
Proof.
  destruct (perform_shape op) as (l & _ & ->). cbn [size_argument attribute].
  split; [done|]. eexists. split; [done|]. apply length_init.
Qed.

(** ** Handles *)

(** C9: an operation that is given a caller-owned handle only reads its
    descriptor: whatever the operating system answers, the operation makes
    one request, a [bpf] command whose attribute is initialised with the
    descriptor, and it never asks to close a descriptor, whether the
    command succeeds or fails. *)
Theorem handle_is_never_closed (op : operation) (h : unique_fd.t) (W : Type)
    (handler : request -> W -> Z * W) (w : W) :
  h ∈ handles op ->
  (exists (designated : list (bpf_attr.field * Z)) (f : bpf_attr.field),
     trace handler (perform op) w
     = [sys_bpf (command op) (bpf_attr.init sizeof_bpf_attr designated)
          (Z.of_nat sizeof_bpf_attr)]
     /\ (f, u32 (unique_fd.get h)) ∈ designated)
  /\ forall q : request, issues (perform op) q -> forall fd : Z, q <> sys_close fd.
Proof.
  intros Hh. split.
  - assert (Htrace : forall attr,
      perform op
      = Syscall (sys_bpf (command op) attr (Z.of_nat sizeof_bpf_attr)) (fun r => Ret (to_int r)) ->
      trace handler (perform op) w = [sys_bpf (command op) attr (Z.of_nat sizeof_bpf_attr)]).
    { intros attr ->. cbn [trace]. by destruct (handler _ w). }
    destruct op; cbn [handles] in Hh;
      repeat (apply elem_of_cons in Hh as [->|Hh]); try (by apply elem_of_nil in Hh);
      eexists _, _; (split; [apply Htrace; reflexivity|]);
      repeat first [apply list_elem_of_here | apply list_elem_of_further].
  - destruct (perform_shape op) as (l & _ & ->).
    intros q Hq fd. inversion Hq; subst; [done|].
    match goal with H : issues (Ret _) _ |- _ => inversion H end.
Qed.

(** ** Facts about the modelled kernel *)

Lemma length_read_bytes (m : gmap Z Z) (p : Z) (n : nat) :
  length (Kernel.read_bytes m p n) = n.
Proof.
  revert p. induction n as [|n IH]; intros p; cbn [Kernel.read_bytes length]; [done|].
  by rewrite IH.
Qed.

Lemma peek_write_bytes_below (m : gmap Z Z) (p q : Z) (bs : list Z) :
  q < p -> Kernel.peek (Kernel.write_bytes m p bs) q = Kernel.peek m q.
Proof.
  revert m p. induction bs as [|b bs IH]; intros m p Hq; cbn [Kernel.write_bytes]; [done|].
  rewrite IH by lia. unfold Kernel.peek. by rewrite lookup_insert_ne by lia.
Qed.

(** Reading back a buffer that was just written. *)
Lemma read_write_bytes (m : gmap Z Z) (p : Z) (bs : list Z) :
  Kernel.read_bytes (Kernel.write_bytes m p bs) p (length bs) = bs.
Proof.
  revert m p. induction bs as [|b bs IH]; intros m p; [done|].
  cbn [Kernel.write_bytes length Kernel.read_bytes].
  rewrite IH. f_equal.
  rewrite peek_write_bytes_below by lia.
  unfold Kernel.peek. by rewrite lookup_insert_eq.
Qed.

Lemma find_put_entry (k v : list Z) (es : list (list Z * list Z)) :
  Kernel.find_entry k (Kernel.put_entry k v es) = Some v.
Proof.
  induction es as [|e es IH]; cbn [Kernel.put_entry Kernel.find_entry].
  - cbn [fst snd]. by rewrite decide_True.
  - destruct (decide (e.1 = k)) as [He|He]; cbn [Kernel.find_entry fst snd].
    + by rewrite decide_True.
    + by rewrite decide_False.
Qed.

Lemma find_remove_entry (k : list Z) (es : list (list Z * list Z)) :
  Kernel.find_entry k (Kernel.remove_entry k es) = None.
Proof.
  unfold Kernel.remove_entry.
  induction es as [|e es IH]; [done|].
  destruct (decide (e.1 = k)) as [He|He].
  - by rewrite filter_cons_False by (intros H; by apply H).
  - rewrite filter_cons_True by done. cbn [Kernel.find_entry].
    by rewrite decide_False.
Qed.

Lemma find_entry_None (k : list Z) (es : list (list Z * list Z)) :
  Kernel.find_entry k es = None <-> k ∉ (fst <$> es).
Proof.
  induction es as [|e es IH]; cbn [Kernel.find_entry fmap list_fmap].
  - split; [intros _; apply not_elem_of_nil|done].
  - rewrite not_elem_of_cons. destruct (decide (e.1 = k)) as [He|He].
    + split; [done|]. intros [Hne _]. by destruct Hne.
    + rewrite IH. split; [intros H; split; [congruence|done]|by intros [_ H]].
Qed.

Lemma lowest_free_spec (fds : gmap Z nat) (from : Z) (n : nat) (fd : Z) :
  Kernel.lowest_free fds from n = Some fd ->
  from <= fd < from + Z.of_nat n /\ fds !! fd = None.
Proof.
  revert from. induction n as [|n IH]; intros from; cbn [Kernel.lowest_free]; [done|].
  destruct (fds !! from) eqn:Hfrom.
  - intros H. apply IH in H. split; [lia|tauto].
  - intros [= <-]. split; [lia|done].
Qed.

(** A descriptor the kernel hands out is free, non-negative and fits an
    [int]. *)
Lemma unused_fd_spec (w : Kernel.world) (fd : Z) :
  Kernel.unused_fd w = Some fd ->
  0 <= fd < 2 ^ 31 /\ Kernel.fds w !! fd = None.
Proof.
  unfold Kernel.unused_fd.
  destruct (Kernel.lowest_free _ _ _) as [fd'|] eqn:Hfree; [|done].
  destruct (fd' <? 2 ^ 31) eqn:Hlt; [|done].
  intros [= <-]. apply lowest_free_spec in Hfree. apply Z.ltb_lt in Hlt.
  split; [lia|tauto].
Qed.

Lemma successor_middle (k : list Z) (before after : list (list Z)) :
  k ∉ before ->
  Kernel.successor k (before ++ k :: after) = Some (head after).
Proof.
  induction before as [|x before IH]; intros Hk; cbn [app Kernel.successor].
  - by rewrite decide_True.
  - apply not_elem_of_cons in Hk as [Hne Hk].
    rewrite decide_False by done. by apply IH.
Qed.

(** The strict check accepts an initialised attribute of the full size. *)
Lemma attr_ok_init (size : nat) (l : list (bpf_attr.field * Z)) :
  forallb (bpf_attr.fits size) (fst <$> l) = true ->
  Kernel.attr_ok (fst <$> l) (bpf_attr.init size l) (Z.of_nat size) = true.
Proof.
  intros Hfit. unfold Kernel.attr_ok. rewrite length_init.
  rewrite Z.eqb_refl. cbn [andb].
  apply andb_true_intro. split; [exact Hfit|].
  apply forallb_forall. intros i Hi. apply in_seq in Hi.
  destruct (bpf_attr.covered (fst <$> l) i) eqn:Hc; [done|]. cbn [orb].
  unfold bpf_attr.byte.
  rewrite (zero_outside_init size l i) by (try rewrite length_init; done || lia).
  done.
Qed.

Hypothesis sizeof_bpf_attr_large_enough : (32 <= sizeof_bpf_attr)%nat.

Lemma fits_sizeof (f : bpf_attr.field) : bpf_attr.fits sizeof_bpf_attr f = true.
Proof. apply Nat.leb_le. destruct f; cbn; lia. Qed.

(** Against the modelled kernel, an operation is its command applied to its
    attribute, the result converted to [int]. *)
Lemma run_kernel (op : operation) (w : Kernel.world) :
  exists l : list (bpf_attr.field * Z),
    perform op
    = Syscall (sys_bpf (command op) (bpf_attr.init sizeof_bpf_attr l)
                 (Z.of_nat sizeof_bpf_attr))
        (fun r => Ret (to_int r))
    /\ run Kernel.syscall (perform op) w
       = (to_int (Kernel.dispatch (command op) (bpf_attr.init sizeof_bpf_attr l) w).1,
          (Kernel.dispatch (command op) (bpf_attr.init sizeof_bpf_attr l) w).2).
Proof.
  destruct (perform_shape op) as (l & Hl & Hp). exists l. split; [exact Hp|].
  rewrite Hp. cbn [run Kernel.syscall]. unfold Kernel.bpf.
  replace (Kernel.reads (command op)) with (fst <$> l)
    by (rewrite Hl; by destruct op).
  rewrite attr_ok_init.
  - cbn [negb]. by destruct (Kernel.dispatch _ _ w).
  - apply forallb_forall. intros f _. apply fits_sizeof.
Qed.

Lemma get_init_32 (f : bpf_attr.field) (l : list (bpf_attr.field * Z)) (v : Z) :
  bpf_attr.width f = 4%nat ->
  bpf_attr.compatible f l = true ->
  bpf_attr.assigned f l = Some v ->
  bpf_attr.get f (bpf_attr.init sizeof_bpf_attr l) = u32 v.
Proof.
  intros Hw Hc Ha. rewrite get_init by (done || apply fits_sizeof).
  by rewrite Ha, Hw.
Qed.

Lemma get_init_64 (f : bpf_attr.field) (l : list (bpf_attr.field * Z)) (v : Z) :
  bpf_attr.width f = 8%nat ->
  bpf_attr.compatible f l = true ->
  bpf_attr.assigned f l = Some v ->
  bpf_attr.get f (bpf_attr.init sizeof_bpf_attr l) = u64 v.
Proof.
  intros Hw Hc Ha. rewrite get_init by (done || apply fits_sizeof).
  by rewrite Ha, Hw.
Qed.

Ltac decode_attr :=
  repeat first
    [ erewrite get_init_32 by reflexivity
    | erewrite get_init_64 by reflexivity ];
  cbn [snd];
  rewrite ?u32_u32, ?u64_ptr_to_u64.

(** The results of the modelled kernel are values of an [int]. *)
Lemma dispatch_is_int (cmd : Z) (attr : bpf_attr.t) (w : Kernel.world) :
  is_int (Kernel.dispatch cmd attr w).1.
Proof.
  assert (Hinstall : forall id w', is_int (Kernel.install id w').1).
  { intros id w'. unfold Kernel.install.
    destruct (Kernel.unused_fd w') as [fd|] eqn:Hfd; cbn; [|unfold is_int; lia].
    apply unused_fd_spec in Hfd. unfold is_int. lia. }
  unfold Kernel.dispatch, Kernel.map_create, Kernel.map_lookup_elem, Kernel.map_update_elem,
    Kernel.map_delete_elem, Kernel.map_get_next_key, Kernel.obj_pin, Kernel.obj_get,
    Kernel.prog_attach, Kernel.prog_detach, Kernel.create_map, Kernel.update_elem,
    Kernel.lookup_elem, Kernel.delete_elem, Kernel.get_next_key, Kernel.pin_object,
    Kernel.get_object, Kernel.attach_prog, Kernel.detach_prog, Kernel.fail.
  repeat case_match; subst; cbn [fst]; try (unfold is_int; lia); try apply Hinstall.
  match goal with H : Kernel.unused_fd _ = Some _ |- _ => apply unused_fd_spec in H end.
  unfold is_int. lia.
Qed.

(** Against the modelled kernel, an operation returns what its command
    returns and leaves the world its command leaves. *)
Lemma run_kernel_attr (op : operation) (attr : bpf_attr.t) (k : Z -> os Z) (w : Kernel.world) :
  perform op = Syscall (sys_bpf (command op) attr (Z.of_nat sizeof_bpf_attr)) k ->
  run Kernel.syscall (perform op) w = Kernel.dispatch (command op) attr w.
Proof.
  intros Hp. destruct (run_kernel op w) as (l & Hp' & ->).
  rewrite Hp' in Hp. injection Hp as -> _.
  rewrite to_int_id by apply dispatch_is_int.
  by destruct (Kernel.dispatch _ _ w).
Qed.

Ltac run_op op :=
  change (run Kernel.syscall _ ?w) with (run Kernel.syscall (perform op) w);
  rewrite (run_kernel_attr op _ _ _ eq_refl).

Lemma run_createMap (map_type key_size value_size max_entries map_flags : Z)
    (w : Kernel.world) :
  run Kernel.syscall (createMap map_type key_size value_size max_entries map_flags) w
  = Kernel.create_map (u32 map_type) (Z.to_nat (u32 key_size)) (Z.to_nat (u32 value_size))
      (Z.to_nat (u32 max_entries)) (u32 map_flags) w.
Proof.
  run_op (CreateMap map_type key_size value_size max_entries map_flags).
  change (Kernel.dispatch _ ?a w) with (Kernel.map_create a w).
  unfold Kernel.map_create. decode_attr. done.
Qed.

Lemma run_writeToMapEntry (map_fd : unique_fd.t) (key value flags : Z) (w : Kernel.world) :
  run Kernel.syscall (writeToMapEntry map_fd key value flags) w
  = Kernel.update_elem (to_int (u32 (unique_fd.get map_fd))) (ptr_to_u64 key)
      (ptr_to_u64 value) (u64 flags) w.
Proof.
  run_op (WriteToMapEntry map_fd key value flags).
  change (Kernel.dispatch _ ?a w) with (Kernel.map_update_elem a w).
  unfold Kernel.map_update_elem. decode_attr. done.
Qed.

Lemma run_findMapEntry (map_fd : unique_fd.t) (key value : Z) (w : Kernel.world) :
  run Kernel.syscall (findMapEntry map_fd key value) w
  = Kernel.lookup_elem (to_int (u32 (unique_fd.get map_fd))) (ptr_to_u64 key)
      (ptr_to_u64 value) w.
Proof.
  run_op (FindMapEntry map_fd key value).
  change (Kernel.dispatch _ ?a w) with (Kernel.map_lookup_elem a w).
  unfold Kernel.map_lookup_elem. decode_attr. done.
Qed.

Lemma run_deleteMapEntry (map_fd : unique_fd.t) (key : Z) (w : Kernel.world) :
  run Kernel.syscall (deleteMapEntry map_fd key) w
  = Kernel.delete_elem (to_int (u32 (unique_fd.get map_fd))) (ptr_to_u64 key) w.
Proof.
  run_op (DeleteMapEntry map_fd key).
  change (Kernel.dispatch _ ?a w) with (Kernel.map_delete_elem a w).
  unfold Kernel.map_delete_elem. decode_attr. done.
Qed.

Lemma run_getNextMapKey (map_fd : unique_fd.t) (key next_key : Z) (w : Kernel.world) :
  run Kernel.syscall (getNextMapKey map_fd key next_key) w
  = Kernel.get_next_key (to_int (u32 (unique_fd.get map_fd))) (ptr_to_u64 key)
      (ptr_to_u64 next_key) w.
Proof.
  run_op (GetNextMapKey map_fd key next_key).
  change (Kernel.dispatch _ ?a w) with (Kernel.map_get_next_key a w).
  unfold Kernel.map_get_next_key. decode_attr. done.
Qed.

(** The request of [getFirstMapKey] carries a null prior key. *)
Lemma getFirstMapKey_attribute (map_fd : unique_fd.t) (firstKey : Z) :
  exists attr : bpf_attr.t,
    attribute (getFirstMapKey map_fd firstKey) = Some attr
    /\ bpf_attr.get bpf_attr.map_fd attr = u32 (unique_fd.get map_fd)
    /\ bpf_attr.get bpf_attr.key attr = NULL
    /\ bpf_attr.get bpf_attr.next_key attr = ptr_to_u64 firstKey.
Proof.
  eexists. split; [reflexivity|]. decode_attr. done.
Qed.

Lemma run_bpfFdPin (map_fd : unique_fd.t) (pathname : Z) (w : Kernel.world) :
  run Kernel.syscall (bpfFdPin map_fd pathname) w
  = Kernel.pin_object (ptr_to_u64 pathname) (to_int (u32 (unique_fd.get map_fd))) w.
Proof.
  run_op (BpfFdPin map_fd pathname).
  change (Kernel.dispatch _ ?a w) with (Kernel.obj_pin a w).
  unfold Kernel.obj_pin. decode_attr. done.
Qed.

Lemma run_bpfFdGet (pathname flag : Z) (w : Kernel.world) :
  run Kernel.syscall (bpfFdGet pathname flag) w
  = Kernel.get_object (ptr_to_u64 pathname) (u32 flag) w.
Proof.
  run_op (BpfFdGet pathname flag).
  change (Kernel.dispatch _ ?a w) with (Kernel.obj_get a w).
  unfold Kernel.obj_get. decode_attr. done.
Qed.

Lemma run_attachProgram (type : Z) (prog_fd cg_fd : unique_fd.t) (w : Kernel.world) :
  run Kernel.syscall (attachProgram type prog_fd cg_fd) w
  = Kernel.attach_prog (to_int (u32 (unique_fd.get cg_fd)))
      (to_int (u32 (unique_fd.get prog_fd))) (u32 type) w.
Proof.
  run_op (AttachProgram type prog_fd cg_fd).
  change (Kernel.dispatch _ ?a w) with (Kernel.prog_attach a w).
  unfold Kernel.prog_attach. decode_attr. done.
Qed.

Lemma run_detachProgram (type : Z) (cg_fd : unique_fd.t) (w : Kernel.world) :
  run Kernel.syscall (detachProgram type cg_fd) w
  = Kernel.detach_prog (to_int (u32 (unique_fd.get cg_fd))) (u32 type) w.
Proof.
  run_op (DetachProgram type cg_fd).
  change (Kernel.dispatch _ ?a w) with (Kernel.prog_detach a w).
  unfold Kernel.prog_detach. decode_attr. done.
Qed.

Lemma object_at_Some (w : Kernel.world) (fd : Z) (id : nat) (o : Kernel.object) :
  Kernel.object_at w fd = Some (id, o) <->
  Kernel.fds w !! fd = Some id /\ Kernel.objs w !! id = Some o.
Proof.
  unfold Kernel.object_at. rewrite bind_Some. split.
  - intros (id' & Hfd & H). apply bind_Some in H as (o' & Ho & [= -> ->]). done.
  - intros [Hfd Ho]. exists id. split; [done|]. apply bind_Some. by exists o.
Qed.

Lemma object_at_store_object (w : Kernel.world) (fd : Z) (id : nat) (o o' : Kernel.object) :
  Kernel.fds w !! fd = Some id ->
  Kernel.objs w !! id = Some o ->
  Kernel.object_at (Kernel.store_object id o' w) fd = Some (id, o').
Proof.
  intros Hfd Ho. apply object_at_Some. split; [done|].
  cbn. apply list_lookup_insert_eq. by apply lookup_lt_Some in Ho.
Qed.

Lemma map_at_Some (w : Kernel.world) (fd : Z) (m : Kernel.bpf_map) :
  Kernel.map_at w fd = Some m <->
  exists id : nat, Kernel.object_at w fd = Some (id, Kernel.Map m).
Proof.
  unfold Kernel.map_at. split.
  - destruct (Kernel.object_at w fd) as [[id [m'| |]]|]; try done.
    intros [= ->]. by exists id.
  - intros [id ->]. done.
Qed.

(** A successful update through one descriptor, then a lookup of the same
    key through a descriptor of the same object: the lookup succeeds and
    copies the value just written to the caller. *)
Lemma update_then_lookup (fa fb kp vp fl out : Z) (w w2 : Kernel.world) (r : Z) :
  Kernel.update_elem fa kp vp fl w = (r, w2) ->
  0 <= r ->
  Kernel.fds w !! fa = Kernel.fds w !! fb ->
  exists m : Kernel.bpf_map,
    Kernel.map_at w fa = Some m
    /\ Kernel.mem w2 = Kernel.mem w
    /\ Kernel.lookup_elem fb kp out w2
       = (0, Kernel.with_mem
               (Kernel.write_bytes (Kernel.mem w) out
                  (Kernel.read_bytes (Kernel.mem w) vp (Kernel.m_value_size m))) w2).
Proof.
  intros Hup Hr Hfds. unfold Kernel.update_elem in Hup.
  destruct (Kernel.object_at w fa) as [[id o]|] eqn:Hobj;
    [|injection Hup as <- _; lia].
  apply object_at_Some in Hobj as [Hfa Hid].
  destruct o as [m| |]; try (injection Hup as <- _; lia).
  exists m. split; [apply map_at_Some; exists id; by apply object_at_Some|].
  set (k := Kernel.read_bytes (Kernel.mem w) kp (Kernel.m_key_size m)) in *.
  set (v := Kernel.read_bytes (Kernel.mem w) vp (Kernel.m_value_size m)) in *.
  assert (Hdone : w2 = Kernel.store_object id
      (Kernel.Map (Kernel.with_entries (Kernel.put_entry k v (Kernel.m_entries m)) m)) w).
  { repeat case_match; injection Hup as <- <-; (lia || done). }
  subst w2. split; [done|].
  unfold Kernel.lookup_elem.
  rewrite (object_at_store_object w fb id (Kernel.Map m)) by congruence.
  cbn [Kernel.m_key_size Kernel.with_entries Kernel.m_entries Kernel.store_object
       Kernel.with_objs Kernel.mem].
  fold k. by rewrite find_put_entry.
Qed.

(** What a successful [createMap] leaves: a descriptor, new and in the
    range of [int], for an empty map of the requested sizes. *)
Lemma createMap_success (map_type key_size value_size max_entries map_flags : Z)
    (w0 w1 : Kernel.world) (fd : Z) :
  run Kernel.syscall (createMap map_type key_size value_size max_entries map_flags) w0
  = (fd, w1) ->
  0 <= fd ->
  is_int fd
  /\ Kernel.fds w0 !! fd = None
  /\ Kernel.mem w1 = Kernel.mem w0
  /\ Kernel.map_at w1 fd
     = Some (Kernel.mk_map (u32 map_type) (Z.to_nat (u32 key_size))
               (Z.to_nat (u32 value_size)) (Z.to_nat (u32 max_entries)) (u32 map_flags) []).
Proof.
  rewrite run_createMap. unfold Kernel.create_map. intros H Hfd.
  destruct (_ || _); [injection H as <- _; lia|].
  destruct (Kernel.unused_fd w0) as [fd'|] eqn:Hfree; [|injection H as <- _; lia].
  injection H as <- <-. apply unused_fd_spec in Hfree as [Hrange Hnone].
  split; [unfold is_int; lia|]. split; [done|]. split; [done|].
  apply map_at_Some. exists (length (Kernel.objs w0)). apply object_at_Some. cbn. split.
  - apply lookup_insert_eq.
  - by rewrite lookup_app_r, Nat.sub_diag by lia.
Qed.

(** ** Round trips through the kernel *)

(** C3: on a map that [createMap] has just created, a key/value pair
    written with [writeToMapEntry] is read back by [findMapEntry]: the read
    succeeds and fills the output buffer with exactly the bytes of the
    value buffer that was written. *)
Theorem write_then_read_round_trip
    (map_type key_size value_size max_entries map_flags key value flags out : Z)
    (w0 w1 w2 : Kernel.world) (fd r : Z) :
  is_u32 value_size -> is_ptr value -> is_ptr out ->
  run Kernel.syscall (createMap map_type key_size value_size max_entries map_flags) w0
  = (fd, w1) ->
  0 <= fd ->
  run Kernel.syscall (writeToMapEntry (unique_fd.mk fd) key value flags) w1 = (r, w2) ->
  0 <= r ->
  exists w3 : Kernel.world,
    run Kernel.syscall (findMapEntry (unique_fd.mk fd) key out) w2 = (0, w3)
    /\ Kernel.read_bytes (Kernel.mem w3) out (Z.to_nat value_size)
       = Kernel.read_bytes (Kernel.mem w1) value (Z.to_nat value_size).
Proof.
  intros Hvs Hvalue Hout Hcreate Hfd Hwrite Hr.
  apply createMap_success in Hcreate as (Hint & _ & _ & Hmap); [|done].
  rewrite run_writeToMapEntry in Hwrite. rewrite run_findMapEntry.
  cbn [unique_fd.get] in *. rewrite to_int_u32 in * by done.
  rewrite (ptr_to_u64_id value), ?(ptr_to_u64_id out) in * by done.
  destruct (update_then_lookup _ fd _ _ _ out _ _ _ Hwrite Hr eq_refl)
    as (m & Hm & Hmem & Hlookup).
  rewrite Hmap in Hm. injection Hm as <-. cbn [Kernel.m_value_size] in Hlookup.
  rewrite (u32_id value_size) in Hlookup by done.
  eexists. split; [exact Hlookup|]. cbn [Kernel.mem Kernel.with_mem].
  rewrite <- (length_read_bytes (Kernel.mem w1) value (Z.to_nat value_size)) at 2.
  apply read_write_bytes.
Qed.

(** The two outcomes of an update of a map: the entry is put and 0 is
    returned, or the call fails and only the last error changes. *)
Lemma update_elem_outcome (fd kp vp fl : Z) (w w1 : Kernel.world) (r : Z) (id : nat)
    (m : Kernel.bpf_map) :
  Kernel.object_at w fd = Some (id, Kernel.Map m) ->
  Kernel.update_elem fd kp vp fl w = (r, w1) ->
  (r = 0
   /\ w1 = Kernel.store_object id
             (Kernel.Map
                (Kernel.with_entries
                   (Kernel.put_entry
                      (Kernel.read_bytes (Kernel.mem w) kp (Kernel.m_key_size m))
                      (Kernel.read_bytes (Kernel.mem w) vp (Kernel.m_value_size m))
                      (Kernel.m_entries m)) m)) w)
  \/ (r = -1 /\ exists e : Z, w1 = Kernel.with_errno e w).
Proof.
  intros Hobj Hup. unfold Kernel.update_elem, Kernel.fail in Hup. rewrite Hobj in Hup.
  repeat case_match; injection Hup as <- <-; eauto.
Qed.

(** Deleting a key that the map holds succeeds and removes it. *)
Lemma delete_elem_present (fd kp : Z) (w : Kernel.world) (id : nat) (m : Kernel.bpf_map) :
  Kernel.object_at w fd = Some (id, Kernel.Map m) ->
  Kernel.find_entry (Kernel.read_bytes (Kernel.mem w) kp (Kernel.m_key_size m))
    (Kernel.m_entries m) <> None ->
  Kernel.delete_elem fd kp w
  = (0, Kernel.store_object id
          (Kernel.Map
             (Kernel.with_entries
                (Kernel.remove_entry
                   (Kernel.read_bytes (Kernel.mem w) kp (Kernel.m_key_size m))
                   (Kernel.m_entries m)) m)) w).
Proof.
  intros Hobj Hk. unfold Kernel.delete_elem. rewrite Hobj.
  by destruct (Kernel.find_entry _ _).
Qed.

(** An update, then a delete of the same key through the same descriptor:
    when the update succeeded or the map already held the key, the delete
    succeeds and leaves a map without the key. *)
Lemma update_then_delete (fd kp vp fl : Z) (w w1 : Kernel.world) (r : Z)
    (m : Kernel.bpf_map) :
  Kernel.map_at w fd = Some m ->
  Kernel.update_elem fd kp vp fl w = (r, w1) ->
  0 <= r \/ Kernel.read_bytes (Kernel.mem w) kp (Kernel.m_key_size m) ∈ Kernel.keys m ->
  exists (w2 : Kernel.world) (m' : Kernel.bpf_map),
    Kernel.delete_elem fd kp w1 = (0, w2)
    /\ Kernel.mem w2 = Kernel.mem w
    /\ Kernel.map_at w2 fd = Some m'
    /\ Kernel.m_key_size m' = Kernel.m_key_size m
    /\ Kernel.find_entry (Kernel.read_bytes (Kernel.mem w) kp (Kernel.m_key_size m))
         (Kernel.m_entries m') = None.
Proof.
  intros Hm Hup Hpresent. apply map_at_Some in Hm as [id Hobj].
  pose proof Hobj as Hobj'. apply object_at_Some in Hobj' as [Hfd Hid].
  set (k := Kernel.read_bytes (Kernel.mem w) kp (Kernel.m_key_size m)) in *.
  assert (Hmap : forall (w' : Kernel.world) (m1 : Kernel.bpf_map),
    Kernel.object_at w' fd = Some (id, Kernel.Map m1) ->
    Kernel.mem w' = Kernel.mem w ->
    Kernel.m_key_size m1 = Kernel.m_key_size m ->
    Kernel.find_entry k (Kernel.m_entries m1) <> None ->
    exists (w2 : Kernel.world) (m' : Kernel.bpf_map),
      Kernel.delete_elem fd kp w' = (0, w2)
      /\ Kernel.mem w2 = Kernel.mem w
      /\ Kernel.map_at w2 fd = Some m'
      /\ Kernel.m_key_size m' = Kernel.m_key_size m
      /\ Kernel.find_entry k (Kernel.m_entries m') = None).
  { intros w' m1 Hobj1 Hmem Hks Hk.
    pose proof Hobj1 as Hobj1'. apply object_at_Some in Hobj1' as [Hfd1 Hid1].
    rewrite (delete_elem_present fd kp w' id m1 Hobj1) by (rewrite Hmem, Hks; exact Hk).
    eexists _, _. split; [reflexivity|]. split; [done|]. split.
    - apply map_at_Some. exists id. by apply (object_at_store_object w' fd id (Kernel.Map m1)).
    - split; [done|]. cbn [Kernel.m_entries Kernel.with_entries].
      rewrite Hmem, Hks. apply find_remove_entry. }
  destruct (update_elem_outcome _ _ _ _ _ _ _ _ _ Hobj Hup) as [[-> ->]|[-> [e ->]]].
  - apply (Hmap _ _ (object_at_store_object w fd id (Kernel.Map m) _ Hfd Hid)); [done|done|].
    cbn [Kernel.m_entries Kernel.with_entries]. fold k. by rewrite find_put_entry.
  - destruct Hpresent as [Hr|Hin]; [lia|].
    apply (Hmap _ m); [exact Hobj|done|done|].
    intros Hnone. by apply find_entry_None in Hnone.
Qed.

(** A lookup of a key that the map does not hold fails with [ENOENT]. *)
Lemma lookup_absent (fd kp out : Z) (w : Kernel.world) (m : Kernel.bpf_map) :
  Kernel.map_at w fd = Some m ->
  Kernel.find_entry (Kernel.read_bytes (Kernel.mem w) kp (Kernel.m_key_size m))
    (Kernel.m_entries m) = None ->
  Kernel.lookup_elem fd kp out w = (-1, Kernel.with_errno Kernel.ENOENT w).
Proof.
  intros Hm Hk. apply map_at_Some in Hm as [id Hobj].
  unfold Kernel.lookup_elem. rewrite Hobj, Hk. done.
Qed.

(** C4: for every map and key, after [writeToMapEntry] has written the
    key (or when the map already held it), deleting the key succeeds and
    leaves a map that no longer contains the key, and reading the key then
    fails: a negative result, with "not found" ([ENOENT]) as the last
    error. *)
Theorem write_delete_then_read_is_not_found
    (map_fd : unique_fd.t) (key value flags out : Z) (w w1 : Kernel.world) (r : Z)
    (m : Kernel.bpf_map) :
  is_int (unique_fd.get map_fd) -> is_ptr key ->
  Kernel.map_at w (unique_fd.get map_fd) = Some m ->
  run Kernel.syscall (writeToMapEntry map_fd key value flags) w = (r, w1) ->
  0 <= r \/ Kernel.read_bytes (Kernel.mem w) key (Kernel.m_key_size m) ∈ Kernel.keys m ->
  exists (w2 w3 : Kernel.world) (m' : Kernel.bpf_map) (r3 : Z),
    run Kernel.syscall (deleteMapEntry map_fd key) w1 = (0, w2)
    /\ Kernel.map_at w2 (unique_fd.get map_fd) = Some m'
    /\ (Kernel.read_bytes (Kernel.mem w) key (Kernel.m_key_size m) ∉ Kernel.keys m')
    /\ run Kernel.syscall (findMapEntry map_fd key out) w2 = (r3, w3)
    /\ r3 < 0
    /\ Kernel.errno w3 = Kernel.ENOENT.
Proof.
  intros Hfd Hkey Hmap Hwrite Hwritten.
  rewrite run_writeToMapEntry in Hwrite.
  rewrite to_int_u32, (ptr_to_u64_id key) in Hwrite by done.
  destruct (update_then_delete _ _ _ _ _ _ _ _ Hmap Hwrite Hwritten)
    as (w2 & m' & Hdel & Hmem & Hm' & Hks & Hk).
  exists w2, (Kernel.with_errno Kernel.ENOENT w2), m', (-1).
  rewrite run_deleteMapEntry, run_findMapEntry.
  rewrite to_int_u32, (ptr_to_u64_id key) by done.
  split; [done|]. split; [done|]. split; [by apply find_entry_None|].
  split; [|done].
  apply (lookup_absent _ _ _ _ m'); [done|]. by rewrite Hmem, Hks.
Qed.

Lemma attached_at_Some (w : Kernel.world) (fd : Z) (attached : gmap Z nat) :
  Kernel.attached_at w fd = Some attached <->
  exists id : nat, Kernel.object_at w fd = Some (id, Kernel.Cgroup attached).
Proof.
  unfold Kernel.attached_at. split.
  - destruct (Kernel.object_at w fd) as [[id [m| |a]]|]; try done.
    intros [= ->]. by exists id.
  - intros [id ->]. done.
Qed.

(** After an attach to a control group, successful or not, the descriptor
    still names the control group; after a successful one, the attach point
    is occupied. *)
Lemma attach_prog_outcome (cgfd pfd ty : Z) (w w1 : Kernel.world) (r : Z) (id : nat)
    (attached : gmap Z nat) :
  Kernel.object_at w cgfd = Some (id, Kernel.Cgroup attached) ->
  Kernel.attach_prog cgfd pfd ty w = (r, w1) ->
  exists attached1 : gmap Z nat,
    Kernel.object_at w1 cgfd = Some (id, Kernel.Cgroup attached1)
    /\ (0 <= r -> is_Some (attached1 !! ty)).
Proof.
  intros Hobj Hattach. unfold Kernel.attach_prog, Kernel.fail in Hattach.
  rewrite Hobj in Hattach.
  pose proof Hobj as Hobj'. apply object_at_Some in Hobj' as [Hfd Hid].
  destruct (Kernel.object_at w pfd) as [[prog [m| |a]]|];
    try (injection Hattach as <- <-; exists attached; split; [exact Hobj|lia]).
  destruct (attached !! ty) eqn:Hslot; injection Hattach as <- <-.
  - exists attached. split; [exact Hobj|lia].
  - exists (<[ty := prog]> attached). split.
    + by apply (object_at_store_object w cgfd id (Kernel.Cgroup attached)).
    + intros _. rewrite lookup_insert_eq. by eexists.
Qed.

(** After a detach at an attach point of a control group, successful or
    not, nothing is attached there, and one more detach fails with
    [ENOENT]. *)
Lemma detach_prog_outcome (cgfd ty : Z) (w1 w2 : Kernel.world) (r : Z) (id : nat)
    (attached1 : gmap Z nat) :
  Kernel.object_at w1 cgfd = Some (id, Kernel.Cgroup attached1) ->
  Kernel.detach_prog cgfd ty w1 = (r, w2) ->
  (is_Some (attached1 !! ty) -> r = 0)
  /\ exists attached2 : gmap Z nat,
       Kernel.attached_at w2 cgfd = Some attached2
       /\ attached2 !! ty = None
       /\ Kernel.detach_prog cgfd ty w2 = (-1, Kernel.with_errno Kernel.ENOENT w2).
Proof.
  intros Hobj Hdetach. unfold Kernel.detach_prog, Kernel.fail in Hdetach.
  rewrite Hobj in Hdetach.
  pose proof Hobj as Hobj'. apply object_at_Some in Hobj' as [Hfd Hid].
  destruct (attached1 !! ty) as [prog|] eqn:Hslot; injection Hdetach as <- <-.
  - split; [done|]. exists (delete ty attached1).
    assert (Hobj2 : Kernel.object_at
              (Kernel.store_object id (Kernel.Cgroup (delete ty attached1)) w1) cgfd
            = Some (id, Kernel.Cgroup (delete ty attached1)))
      by by apply (object_at_store_object w1 cgfd id (Kernel.Cgroup attached1)).
    split; [apply attached_at_Some; by exists id|].
    split; [apply lookup_delete_eq|].
    unfold Kernel.detach_prog. by rewrite Hobj2, lookup_delete_eq.
  - split; [by intros [? ?]|]. exists attached1.
    split; [apply attached_at_Some; by exists id|]. split; [done|].
    unfold Kernel.detach_prog.
    change (Kernel.object_at (Kernel.with_errno Kernel.ENOENT w1) cgfd)
      with (Kernel.object_at w1 cgfd).
    by rewrite Hobj, Hslot.
Qed.

(** C6: for every control group, attach point and program,
    [attachProgram] followed by [detachProgram] at that attach point leaves
    no program attached there (the detach succeeds when the attach did),
    and a second detach at the same attach point fails: a negative result,
    with "nothing attached" ([ENOENT]) as the last error. *)
Theorem attach_detach_then_detach_fails
    (type : Z) (prog_fd cg_fd : unique_fd.t) (w w1 w2 : Kernel.world) (r1 r2 : Z)
    (attached : gmap Z nat) :
  is_int (unique_fd.get cg_fd) ->
  Kernel.attached_at w (unique_fd.get cg_fd) = Some attached ->
  run Kernel.syscall (attachProgram type prog_fd cg_fd) w = (r1, w1) ->
  run Kernel.syscall (detachProgram type cg_fd) w1 = (r2, w2) ->
  (0 <= r1 -> r2 = 0)
  /\ exists (attached2 : gmap Z nat) (w3 : Kernel.world) (r3 : Z),
       Kernel.attached_at w2 (unique_fd.get cg_fd) = Some attached2
       /\ attached2 !! u32 type = None
       /\ run Kernel.syscall (detachProgram type cg_fd) w2 = (r3, w3)
       /\ r3 < 0
       /\ Kernel.errno w3 = Kernel.ENOENT.
Proof.
  intros Hfd Hcg Hattach Hdetach.
  rewrite run_attachProgram in Hattach. rewrite run_detachProgram in *.
  rewrite (to_int_u32 (unique_fd.get cg_fd)) in * by done.
  apply attached_at_Some in Hcg as [id Hobj].
  destruct (attach_prog_outcome _ _ _ _ _ _ _ _ Hobj Hattach) as (attached1 & Hobj1 & Hocc).
  destruct (detach_prog_outcome _ _ _ _ _ _ _ Hobj1 Hdetach)
    as (Hr2 & attached2 & Hat2 & Hnone & Hagain).
  split; [auto|].
  exists attached2, (Kernel.with_errno Kernel.ENOENT w2), (-1).
  split; [done|]. split; [done|]. split; [done|]. split; [lia|done].
Qed.

Lemma map_at_same_object (w : Kernel.world) (fa fb : Z) :
  Kernel.fds w !! fa = Kernel.fds w !! fb -> Kernel.map_at w fa = Kernel.map_at w fb.
Proof. intros H. unfold Kernel.map_at, Kernel.object_at. by rewrite H. Qed.

(** The two outcomes of a pin: the path, until then free, names the object
    of the descriptor and 0 is returned, or the call fails and only the last
    error changes. *)
Lemma pin_object_outcome (pp fd : Z) (w w1 : Kernel.world) (r : Z) :
  Kernel.pin_object pp fd w = (r, w1) ->
  (r = 0
   /\ exists (id : nat) (path : list Z),
        Kernel.fds w !! fd = Some id
        /\ Kernel.read_cstr Kernel.PATH_MAX (Kernel.mem w) pp = Some path
        /\ Kernel.pins w !! path = None
        /\ w1 = Kernel.with_pins (<[path := id]> (Kernel.pins w)) w)
  \/ (r = -1 /\ exists e : Z, w1 = Kernel.with_errno e w).
Proof.
  unfold Kernel.pin_object, Kernel.fail. intros H.
  destruct (Kernel.object_at w fd) as [[id o]|] eqn:Hobj;
    [|injection H as <- <-; eauto].
  apply object_at_Some in Hobj as [Hfd _].
  destruct (Kernel.read_cstr _ _ _) as [path|];
    [|destruct o; injection H as <- <-; eauto].
  destruct (Kernel.pins w !! path) eqn:Hpin;
    destruct o; injection H as <- <-; eauto 10.
Qed.

(** What a successful retrieval leaves: a new descriptor for the object
    the path names. *)
Lemma get_object_success (pp fl : Z) (w1 w2 : Kernel.world) (fd2 : Z) :
  Kernel.get_object pp fl w1 = (fd2, w2) ->
  0 <= fd2 ->
  exists (path : list Z) (id : nat),
    Kernel.read_cstr Kernel.PATH_MAX (Kernel.mem w1) pp = Some path
    /\ Kernel.pins w1 !! path = Some id
    /\ Kernel.fds w1 !! fd2 = None
    /\ is_int fd2
    /\ w2 = Kernel.with_fds (<[fd2 := id]> (Kernel.fds w1)) w1.
Proof.
  unfold Kernel.get_object, Kernel.install, Kernel.fail. intros H Hfd.
  destruct (negb _); [injection H as <- _; lia|].
  destruct (Kernel.read_cstr _ _ _) as [path|]; [|injection H as <- _; lia].
  destruct (Kernel.pins w1 !! path) as [id|] eqn:Hpin; [|injection H as <- _; lia].
  destruct (Kernel.unused_fd w1) as [fd|] eqn:Hfree; [|injection H as <- _; lia].
  injection H as <- <-. apply unused_fd_spec in Hfree as [Hrange Hnone].
  exists path, id. repeat split; (done || lia).
Qed.

(** C7: for every handle and fresh path, after [bpfFdPin] of the handle at
    the path, a successful [mapRetrieve] from that path yields a new
    descriptor for the same kernel object (and the pin had succeeded): a
    value written through either handle is read back through the other. *)
Theorem pin_then_retrieve_names_the_same_object
    (map_fd : unique_fd.t) (pathname flag : Z) (w w1 w2 : Kernel.world) (r fd2 : Z) :
  is_int (unique_fd.get map_fd) -> is_ptr pathname ->
  (forall path : list Z,
     Kernel.read_cstr Kernel.PATH_MAX (Kernel.mem w) pathname = Some path ->
     Kernel.pins w !! path = None) ->
  run Kernel.syscall (bpfFdPin map_fd pathname) w = (r, w1) ->
  run Kernel.syscall (mapRetrieve pathname flag) w1 = (fd2, w2) ->
  0 <= fd2 ->
  r = 0
  /\ fd2 <> unique_fd.get map_fd
  /\ (exists id : nat,
        Kernel.fds w2 !! fd2 = Some id /\ Kernel.fds w2 !! unique_fd.get map_fd = Some id)
  /\ forall ha hb : unique_fd.t,
       (ha = map_fd /\ hb = unique_fd.mk fd2) \/ (ha = unique_fd.mk fd2 /\ hb = map_fd) ->
       forall (key value flags out r3 : Z) (w3 : Kernel.world),
         is_ptr value -> is_ptr out ->
         run Kernel.syscall (writeToMapEntry ha key value flags) w2 = (r3, w3) ->
         0 <= r3 ->
         exists (m : Kernel.bpf_map) (w4 : Kernel.world),
           Kernel.map_at w2 (unique_fd.get map_fd) = Some m
           /\ run Kernel.syscall (findMapEntry hb key out) w3 = (0, w4)
           /\ Kernel.read_bytes (Kernel.mem w4) out (Kernel.m_value_size m)
              = Kernel.read_bytes (Kernel.mem w2) value (Kernel.m_value_size m).
Proof.
  intros Hfd Hpath Hfresh Hpin Hget Hfd2.
  rewrite run_bpfFdPin, to_int_u32, ptr_to_u64_id in Hpin by done.
  unfold mapRetrieve in Hget. rewrite run_bpfFdGet, ptr_to_u64_id in Hget by done.
  apply get_object_success in Hget as (path & id & Hread & Hpinned & Hnew & Hint2 & ->);
    [|done].
  apply pin_object_outcome in Hpin as [(-> & id' & path' & Hh & Hread' & _ & ->)|(_ & e & ->)].
  2:{ cbn [Kernel.mem Kernel.pins Kernel.with_errno] in *.
      rewrite (Hfresh path Hread) in Hpinned. done. }
  cbn [Kernel.mem Kernel.pins Kernel.fds Kernel.with_pins] in *.
  rewrite Hread' in Hread. injection Hread as ->.
  rewrite lookup_insert_eq in Hpinned. injection Hpinned as ->.
  split; [done|].
  assert (Hne : fd2 <> unique_fd.get map_fd) by congruence.
  set (w2 := Kernel.with_fds _ _).
  assert (H2 : Kernel.fds w2 !! fd2 = Some id) by apply lookup_insert_eq.
  assert (H1 : Kernel.fds w2 !! unique_fd.get map_fd = Some id).
  { unfold w2. cbn. by rewrite lookup_insert_ne. }
  split; [done|]. split; [by exists id|].
  intros ha hb Hab key value flags out r3 w3 Hvalue Hout Hwrite Hr3.
  assert (Hab' : is_int (unique_fd.get ha) /\ is_int (unique_fd.get hb)
                 /\ Kernel.fds w2 !! unique_fd.get ha = Kernel.fds w2 !! unique_fd.get hb
                 /\ Kernel.fds w2 !! unique_fd.get ha
                    = Kernel.fds w2 !! unique_fd.get map_fd).
  { destruct Hab as [[-> ->]|[-> ->]]; cbn [unique_fd.get]; rewrite ?H1, ?H2; done. }
  destruct Hab' as (Ha & Hb & Hsame & Hsame').
  rewrite run_writeToMapEntry in Hwrite. rewrite run_findMapEntry.
  rewrite !to_int_u32 in * by done.
  rewrite (ptr_to_u64_id value), ?(ptr_to_u64_id out) in * by done.
  destruct (update_then_lookup _ _ _ _ _ out _ _ _ Hwrite Hr3 Hsame)
    as (m & Hm & Hmem & Hlookup).
  exists m. eexists. split; [by rewrite <- (map_at_same_object _ _ _ Hsame')|].
  split; [exact Hlookup|]. cbn [Kernel.mem Kernel.with_mem].
  rewrite <- (length_read_bytes (Kernel.mem w2) value (Kernel.m_value_size m)) at 2.
  apply read_write_bytes.
Qed.

Lemma wf_map_key_length (m : Kernel.bpf_map) (k : list Z) :
  Kernel.wf_map m -> k ∈ Kernel.keys m -> length k = Kernel.m_key_size m.
Proof.
  intros [_ Hall] Hk. unfold Kernel.keys in Hk.
  apply list_elem_of_fmap in Hk as (e & -> & He).
  rewrite Forall_forall in Hall. by apply Hall.
Qed.

(** The first call of an iteration: the first key, or [ENOENT] for an
    empty map. *)
Lemma get_next_key_first (fd np : Z) (w : Kernel.world) (m : Kernel.bpf_map) :
  Kernel.map_at w fd = Some m ->
  Kernel.get_next_key fd NULL np w
  = match head (Kernel.keys m) with
    | None => Kernel.fail Kernel.ENOENT w
    | Some k => (0, Kernel.with_mem (Kernel.write_bytes (Kernel.mem w) np k) w)
    end.
Proof.
  intros Hm. apply map_at_Some in Hm as [id Hobj].
  unfold Kernel.get_next_key. rewrite Hobj. done.
Qed.

(** A later call of an iteration: the key after the one in the caller's
    buffer, or [ENOENT] after the last key. *)
Lemma get_next_key_after (fd kp np : Z) (w : Kernel.world) (m : Kernel.bpf_map)
    (before after : list (list Z)) (k : list Z) :
  Kernel.map_at w fd = Some m ->
  kp <> NULL ->
  Kernel.keys m = before ++ k :: after ->
  k ∉ before ->
  Kernel.read_bytes (Kernel.mem w) kp (Kernel.m_key_size m) = k ->
  Kernel.get_next_key fd kp np w
  = match head after with
    | None => Kernel.fail Kernel.ENOENT w
    | Some k' => (0, Kernel.with_mem (Kernel.write_bytes (Kernel.mem w) np k') w)
    end.
Proof.
  intros Hm Hkp Hkeys Hk Hread. apply map_at_Some in Hm as [id Hobj].
  unfold Kernel.get_next_key. rewrite Hobj.
  rewrite (proj2 (Z.eqb_neq kp NULL)) by done.
  rewrite Hread, Hkeys. unfold Kernel.key_after.
  by rewrite successor_middle.
Qed.

(** The calls of an iteration after the first: from a world in which the
    caller's buffer holds the key [k] of the map, they visit the keys after
    [k], in order, and end with [ENOENT]. *)
Lemma iterate_from_visits (map_fd : unique_fd.t) (cur next : Z) (m : Kernel.bpf_map) :
  is_int (unique_fd.get map_fd) -> is_ptr cur -> cur <> NULL -> is_ptr next ->
  Kernel.wf_map m ->
  forall (after before : list (list Z)) (k : list Z) (w : Kernel.world) (fuel : nat),
    Kernel.map_at w (unique_fd.get map_fd) = Some m ->
    Kernel.keys m = before ++ k :: after ->
    Kernel.read_bytes (Kernel.mem w) cur (Kernel.m_key_size m) = k ->
    (length after < fuel)%nat ->
    iterate_from fuel map_fd cur next (Kernel.m_key_size m) w = (after, Some Kernel.ENOENT).
Proof.
  intros Hfd Hcur Hnull Hnext Hwf.
  induction after as [|k' after IH]; intros before k w fuel Hm Hkeys Hread Hfuel;
    (destruct fuel as [|fuel]; [cbn [length] in Hfuel; lia|]);
    cbn [iterate_from];
    rewrite run_getNextMapKey, to_int_u32, !ptr_to_u64_id by done;
    (rewrite (get_next_key_after _ _ _ _ m before _ k Hm Hnull Hkeys); [|
      destruct Hwf as [Hnodup _]; rewrite Hkeys in Hnodup;
      apply NoDup_app in Hnodup as (_ & Hdisj & _);
      intros Hin; apply (Hdisj k Hin); apply list_elem_of_here |exact Hread]);
    cbn [head].
  - done.
  - assert (Hlen : length k' = Kernel.m_key_size m).
    { apply wf_map_key_length; [done|]. rewrite Hkeys.
      apply elem_of_app. right. apply list_elem_of_further, list_elem_of_here. }
    assert (Hrw : forall (mm : gmap Z Z) (p : Z),
      Kernel.read_bytes (Kernel.write_bytes mm p k') p (Kernel.m_key_size m) = k').
    { intros mm p. rewrite <- Hlen. apply read_write_bytes. }
    cbn [Kernel.mem Kernel.with_mem].
    change (0 <? 0) with false. cbn iota.
    rewrite Hrw.
    rewrite (IH (before ++ [k]) k'); [done| | | |].
    + done.
    + by rewrite <- app_assoc.
    + cbn [Kernel.mem Kernel.with_mem]. apply Hrw.
    + cbn [length] in Hfuel. lia.
Qed.

Lemma wf_map_at (w : Kernel.world) (fd : Z) (m : Kernel.bpf_map) :
  Kernel.wf w -> Kernel.map_at w fd = Some m -> Kernel.wf_map m.
Proof.
  intros Hw Hm. apply map_at_Some in Hm as [id Hobj].
  apply object_at_Some in Hobj as [_ Hid].
  unfold Kernel.wf in Hw. rewrite Forall_lookup in Hw. apply (Hw id _ Hid).
Qed.

(** ** Iteration *)

(** C5: iterating over a map (a first call with no prior key, then calls
    with the previously returned key) visits exactly the keys of the map,
    each once, and then ends: the call after the last key fails with
    "exhausted" ([ENOENT]), as soon as the iteration is given one call more
    than the map has keys. *)
Theorem iteration_visits_every_key_once
    (map_fd : unique_fd.t) (cur next : Z) (w : Kernel.world) (m : Kernel.bpf_map)
    (fuel : nat) :
  is_int (unique_fd.get map_fd) -> is_ptr cur -> cur <> NULL -> is_ptr next ->
  Kernel.wf w ->
  Kernel.map_at w (unique_fd.get map_fd) = Some m ->
  (length (Kernel.keys m) < fuel)%nat ->
  exists visited : list (list Z),
    iterate fuel map_fd cur next (Kernel.m_key_size m) w = (visited, Some Kernel.ENOENT)
    /\ NoDup visited
    /\ (forall k : list Z, k ∈ visited <-> k ∈ Kernel.keys m)
    /\ visited = Kernel.keys m.
Proof.
  intros Hfd Hcur Hnull Hnext Hw Hm Hfuel.
  assert (Hwf : Kernel.wf_map m) by exact (wf_map_at w _ m Hw Hm).
  exists (Kernel.keys m). split; [|split; [apply Hwf|split; done]].
  destruct fuel as [|fuel]; [lia|].
  cbn [iterate]. unfold getFirstMapKey.
  rewrite run_getNextMapKey, to_int_u32, (ptr_to_u64_id next) by done.
  change (ptr_to_u64 NULL) with NULL.
  rewrite (get_next_key_first _ _ _ m Hm).
  destruct (Kernel.keys m) as [|k after] eqn:Hkeys; cbn [head]; [done|].
  assert (Hlen : length k = Kernel.m_key_size m).
  { apply wf_map_key_length; [done|]. rewrite Hkeys. apply list_elem_of_here. }
  assert (Hrw : forall (mm : gmap Z Z) (p : Z),
    Kernel.read_bytes (Kernel.write_bytes mm p k) p (Kernel.m_key_size m) = k).
  { intros mm p. rewrite <- Hlen. apply read_write_bytes. }
  cbn [Kernel.mem Kernel.with_mem].
  change (0 <? 0) with false. cbn iota.
  rewrite Hrw.
  rewrite (iterate_from_visits map_fd cur next m Hfd Hcur Hnull Hnext Hwf after [] k);
    [done|done|done| |].
  - cbn [Kernel.mem Kernel.with_mem]. apply Hrw.
  - cbn [length] in Hfuel. lia.
Qed.

(** ** The invariant of the modelled kernel *)

Lemma elem_of_keys_put_entry (k v x : list Z) (es : list (list Z * list Z)) :
  x ∈ (fst <$> Kernel.put_entry k v es) <-> x = k \/ x ∈ (fst <$> es).
Proof.
  induction es as [|e es IH]; cbn [Kernel.put_entry].
  - cbn. rewrite elem_of_cons. done.
  - destruct (decide (e.1 = k)) as [He|He]; cbn [fmap list_fmap fst].
    + rewrite !elem_of_cons, He. tauto.
    + rewrite !elem_of_cons, IH. tauto.
Qed.

Lemma NoDup_keys_put_entry (k v : list Z) (es : list (list Z * list Z)) :
  NoDup (fst <$> es) -> NoDup (fst <$> Kernel.put_entry k v es).
Proof.
  induction es as [|e es IH]; cbn [Kernel.put_entry]; intros Hnd.
  - cbn. apply NoDup_singleton.
  - cbn [fmap list_fmap] in Hnd. apply NoDup_cons in Hnd as [Hnotin Hnd].
    destruct (decide (e.1 = k)) as [He|He]; cbn [fmap list_fmap fst].
    + apply NoDup_cons. by rewrite <- He.
    + apply NoDup_cons. split; [|by apply IH].
      rewrite elem_of_keys_put_entry. intros [Heq|Hin]; [by apply He|by apply Hnotin].
Qed.

Lemma Forall_put_entry (P : list Z * list Z -> Prop) (k v : list Z)
    (es : list (list Z * list Z)) :
  Forall P es -> P (k, v) -> Forall P (Kernel.put_entry k v es).
Proof.
  intros Hall Hkv. induction Hall as [|e es He Hall IH]; cbn [Kernel.put_entry].
  - by repeat constructor.
  - destruct (decide (e.1 = k)); constructor; done.
Qed.

Lemma NoDup_keys_remove_entry (k : list Z) (es : list (list Z * list Z)) :
  NoDup (fst <$> es) -> NoDup (fst <$> Kernel.remove_entry k es).
Proof.
  unfold Kernel.remove_entry.
  induction es as [|e es IH]; intros Hnd; [done|].
  cbn [fmap list_fmap] in Hnd. apply NoDup_cons in Hnd as [Hnotin Hnd].
  rewrite filter_cons. destruct (decide (e.1 <> k)); [|by apply IH].
  cbn [fmap list_fmap]. apply NoDup_cons. split; [|by apply IH].
  intros Hin. apply Hnotin.
  apply list_elem_of_fmap in Hin as (e' & -> & He').
  apply list_elem_of_filter in He' as [_ He'].
  by apply list_elem_of_fmap_2.
Qed.

Lemma wf_map_put_entry (m : Kernel.bpf_map) (k v : list Z) :
  Kernel.wf_map m ->
  length k = Kernel.m_key_size m -> length v = Kernel.m_value_size m ->
  Kernel.wf_map (Kernel.with_entries (Kernel.put_entry k v (Kernel.m_entries m)) m).
Proof.
  intros [Hnd Hall] Hk Hv. split.
  - by apply NoDup_keys_put_entry.
  - by apply Forall_put_entry.
Qed.

Lemma wf_map_remove_entry (m : Kernel.bpf_map) (k : list Z) :
  Kernel.wf_map m ->
  Kernel.wf_map (Kernel.with_entries (Kernel.remove_entry k (Kernel.m_entries m)) m).
Proof.
  intros [Hnd Hall]. split.
  - by apply NoDup_keys_remove_entry.
  - cbn. unfold Kernel.remove_entry. rewrite Forall_forall in Hall |- *.
    intros e He. apply list_elem_of_filter in He as [_ He]. by apply Hall.
Qed.

Lemma wf_store_object (id : nat) (o : Kernel.object) (w : Kernel.world) :
  Kernel.wf w ->
  match o with Kernel.Map m => Kernel.wf_map m | _ => True end ->
  Kernel.wf (Kernel.store_object id o w).
Proof. intros Hw Ho. unfold Kernel.wf. cbn. by apply Forall_insert. Qed.

(** Every system call keeps the maps well formed; so does whatever the
    caller does to its own memory. *)
Lemma syscall_preserves_wf (q : request) (w : Kernel.world) :
  Kernel.wf w -> Kernel.wf (Kernel.syscall q w).2.
Proof.
  intros Hw.
  assert (Hat : forall fd id m, Kernel.object_at w fd = Some (id, Kernel.Map m) ->
                                Kernel.wf_map m).
  { intros fd id m Hobj. apply (wf_map_at w fd); [done|]. apply map_at_Some. by exists id. }
  destruct q as [cmd attr size|fd]; cbn [Kernel.syscall].
  - unfold Kernel.bpf. destruct (negb _); [done|].
    unfold Kernel.dispatch, Kernel.map_create, Kernel.map_lookup_elem,
      Kernel.map_update_elem, Kernel.map_delete_elem, Kernel.map_get_next_key,
      Kernel.obj_pin, Kernel.obj_get, Kernel.prog_attach, Kernel.prog_detach,
      Kernel.create_map, Kernel.update_elem, Kernel.lookup_elem, Kernel.delete_elem,
      Kernel.get_next_key, Kernel.pin_object, Kernel.get_object, Kernel.install,
      Kernel.attach_prog, Kernel.detach_prog, Kernel.fail.
    repeat case_match; subst; cbn [snd]; try done;
      try (apply wf_store_object; [done|]; first
             [ apply wf_map_put_entry; eauto using length_read_bytes
             | apply wf_map_remove_entry; eauto
             | done ]).
    unfold Kernel.wf. cbn. apply Forall_app. split; [done|].
    repeat constructor.
  - unfold Kernel.close. by destruct (Kernel.fds w !! fd).
Qed.

Lemma boot_wf : Kernel.wf Kernel.boot.
Proof. constructor. Qed.

(** No command of [bpf] closes a descriptor or changes the object it
    names, and no object ceases to exist: an open descriptor stays valid
    through every operation of this layer, whether it succeeds or fails. *)
Lemma dispatch_keeps_descriptors (cmd : Z) (attr : bpf_attr.t) (w : Kernel.world)
    (fd : Z) (id : nat) :
  Kernel.fds w !! fd = Some id ->
  (id < length (Kernel.objs w))%nat ->
  Kernel.fds (Kernel.dispatch cmd attr w).2 !! fd = Some id
  /\ (id < length (Kernel.objs (Kernel.dispatch cmd attr w).2))%nat.
Proof.
  intros Hfd Hid.
  unfold Kernel.dispatch, Kernel.map_create, Kernel.map_lookup_elem,
    Kernel.map_update_elem, Kernel.map_delete_elem, Kernel.map_get_next_key,
    Kernel.obj_pin, Kernel.obj_get, Kernel.prog_attach, Kernel.prog_detach,
    Kernel.create_map, Kernel.update_elem, Kernel.lookup_elem, Kernel.delete_elem,
    Kernel.get_next_key, Kernel.pin_object, Kernel.get_object, Kernel.install,
    Kernel.attach_prog, Kernel.detach_prog, Kernel.fail.
  repeat case_match; subst; cbn [snd Kernel.fds Kernel.objs Kernel.with_errno Kernel.with_mem
    Kernel.with_fds Kernel.with_objs Kernel.with_pins Kernel.store_object];
    rewrite ?length_insert, ?length_app; try (split; [done|lia]);
    match goal with H : Kernel.unused_fd _ = Some _ |- _ => apply unused_fd_spec in H as [_ H] end;
    (split; [rewrite lookup_insert_ne; [done|congruence]|lia]).
Qed.

Lemma operation_keeps_descriptors (op : operation) (w : Kernel.world) (fd : Z) (id : nat) :
  Kernel.fds w !! fd = Some id ->
  (id < length (Kernel.objs w))%nat ->
  Kernel.fds (run Kernel.syscall (perform op) w).2 !! fd = Some id
  /\ (id < length (Kernel.objs (run Kernel.syscall (perform op) w).2))%nat.
Proof.
  intros Hfd Hid. destruct (perform_shape op) as (l & _ & Hp).
  rewrite (run_kernel_attr op _ _ w Hp). by apply dispatch_keeps_descriptors.
Qed.

(** ** The wire format of the attributes *)

Lemma init_sizeof (l : list (bpf_attr.field * Z)) :
  forallb (bpf_attr.fits 32) (fst <$> l) = true ->
  bpf_attr.init sizeof_bpf_attr l
  = bpf_attr.init 32 l ++ replicate (sizeof_bpf_attr - 32) 0.
Proof.
  intros Hfit. rewrite <- init_grow by done. f_equal. lia.
Qed.

(** The image of an initialised attribute: its first 32 bytes, then the
    zero bytes [tail] of which the last [sizeof_bpf_attr - 32] lie beyond
    them. *)
Lemma init_image (l : list (bpf_attr.field * Z)) (used : nat) (bytes : list Z) :
  forallb (bpf_attr.fits 32) (fst <$> l) = true ->
  (used <= 32)%nat ->
  bpf_attr.init 32 l = bytes ++ replicate (32 - used) 0 ->
  bpf_attr.init sizeof_bpf_attr l = bytes ++ replicate (sizeof_bpf_attr - used) 0.
Proof.
  intros Hfit Hused Hbytes. rewrite init_sizeof, Hbytes by done.
  rewrite <- app_assoc, <- replicate_add. do 2 f_equal. lia.
Qed.

Ltac read_unset :=
  first
    [ done
    | by rewrite get_init by (reflexivity || apply fits_sizeof)
    | unfold getFirstMapKey, getNextMapKey, findMapEntry, writeToMapEntry, deleteMapEntry,
        attachProgram, detachProgram, bpf;
      cbn [attribute]; f_equal; rewrite !init_sizeof by reflexivity; by f_equal ].

Ltac wire_image used :=
  rewrite ?app_assoc; apply (init_image _ used); [reflexivity|lia|reflexivity].

(** X1: [createMap] sends the five arguments as consecutive little-endian
    32-bit words, followed by zero bytes up to the size of the union; each
    member reads back the argument, reduced to 32 bits. *)
Theorem createMap_wire_image (map_type key_size value_size max_entries map_flags : Z) :
  exists attr : bpf_attr.t,
    attribute (createMap map_type key_size value_size max_entries map_flags) = Some attr
    /\ attr = bpf_attr.le 4 map_type ++ bpf_attr.le 4 key_size ++ bpf_attr.le 4 value_size
              ++ bpf_attr.le 4 max_entries ++ bpf_attr.le 4 map_flags
              ++ replicate (sizeof_bpf_attr - 20) 0
    /\ bpf_attr.get bpf_attr.map_type attr = u32 map_type
    /\ bpf_attr.get bpf_attr.key_size attr = u32 key_size
    /\ bpf_attr.get bpf_attr.value_size attr = u32 value_size
    /\ bpf_attr.get bpf_attr.max_entries attr = u32 max_entries
    /\ bpf_attr.get bpf_attr.map_flags attr = u32 map_flags.
Proof.
  eexists. split; [reflexivity|]. split; [wire_image 20%nat|]. decode_attr. done.
Qed.

(** X2: [writeToMapEntry] sends the descriptor as a 32-bit word, four zero
    bytes of padding, then the addresses of the key and value buffers and
    the flags as 64-bit words, followed by zero bytes; each member reads
    back what was passed. *)
Theorem writeToMapEntry_wire_image (map_fd : unique_fd.t) (key value flags : Z) :
  exists attr : bpf_attr.t,
    attribute (writeToMapEntry map_fd key value flags) = Some attr
    /\ attr = bpf_attr.le 4 (u32 (unique_fd.get map_fd)) ++ replicate 4 0
              ++ bpf_attr.le 8 (ptr_to_u64 key) ++ bpf_attr.le 8 (ptr_to_u64 value)
              ++ bpf_attr.le 8 flags ++ replicate (sizeof_bpf_attr - 32) 0
    /\ bpf_attr.get bpf_attr.map_fd attr = u32 (unique_fd.get map_fd)
    /\ bpf_attr.get bpf_attr.key attr = ptr_to_u64 key
    /\ bpf_attr.get bpf_attr.value attr = ptr_to_u64 value
    /\ bpf_attr.get bpf_attr.flags attr = u64 flags.
Proof.
  eexists. split; [reflexivity|]. split; [wire_image 32%nat|].
  decode_attr. repeat split; read_unset.
Qed.

(** X3: [findMapEntry] sends the descriptor, four zero bytes of padding and
    the addresses of the key buffer and of the output buffer, followed by
    zero bytes: the flags of the kernel's structure are zero. *)
Theorem findMapEntry_wire_image (map_fd : unique_fd.t) (key value : Z) :
  exists attr : bpf_attr.t,
    attribute (findMapEntry map_fd key value) = Some attr
    /\ attr = bpf_attr.le 4 (u32 (unique_fd.get map_fd)) ++ replicate 4 0
              ++ bpf_attr.le 8 (ptr_to_u64 key) ++ bpf_attr.le 8 (ptr_to_u64 value)
              ++ replicate (sizeof_bpf_attr - 24) 0
    /\ bpf_attr.get bpf_attr.map_fd attr = u32 (unique_fd.get map_fd)
    /\ bpf_attr.get bpf_attr.key attr = ptr_to_u64 key
    /\ bpf_attr.get bpf_attr.value attr = ptr_to_u64 value
    /\ bpf_attr.get bpf_attr.flags attr = 0.
Proof.
  eexists. split; [reflexivity|]. split; [wire_image 24%nat|].
  decode_attr. repeat split; read_unset.
Qed.

(** X4: [deleteMapEntry] sends the descriptor, four zero bytes of padding
    and the address of the key buffer, followed by zero bytes: the value
    and the flags of the kernel's structure are zero. *)
Theorem deleteMapEntry_wire_image (map_fd : unique_fd.t) (key : Z) :
  exists attr : bpf_attr.t,
    attribute (deleteMapEntry map_fd key) = Some attr
    /\ attr = bpf_attr.le 4 (u32 (unique_fd.get map_fd)) ++ replicate 4 0
              ++ bpf_attr.le 8 (ptr_to_u64 key) ++ replicate (sizeof_bpf_attr - 16) 0
    /\ bpf_attr.get bpf_attr.map_fd attr = u32 (unique_fd.get map_fd)
    /\ bpf_attr.get bpf_attr.key attr = ptr_to_u64 key
    /\ bpf_attr.get bpf_attr.value attr = 0
    /\ bpf_attr.get bpf_attr.flags attr = 0.
Proof.
  eexists. split; [reflexivity|]. split; [wire_image 16%nat|].
  decode_attr. repeat split; read_unset.
Qed.

(** X5: [getNextMapKey] sends the descriptor, four zero bytes of padding
    and the addresses of the buffer of the prior key and of the output
    buffer, followed by zero bytes; the output buffer stands where
    [findMapEntry] puts its value buffer. *)
Theorem getNextMapKey_wire_image (map_fd : unique_fd.t) (key next_key : Z) :
  exists attr : bpf_attr.t,
    attribute (getNextMapKey map_fd key next_key) = Some attr
    /\ attr = bpf_attr.le 4 (u32 (unique_fd.get map_fd)) ++ replicate 4 0
              ++ bpf_attr.le 8 (ptr_to_u64 key) ++ bpf_attr.le 8 (ptr_to_u64 next_key)
              ++ replicate (sizeof_bpf_attr - 24) 0
    /\ bpf_attr.get bpf_attr.map_fd attr = u32 (unique_fd.get map_fd)
    /\ bpf_attr.get bpf_attr.key attr = ptr_to_u64 key
    /\ bpf_attr.get bpf_attr.next_key attr = ptr_to_u64 next_key
    /\ attribute (getNextMapKey map_fd key next_key)
       = attribute (findMapEntry map_fd key next_key).
Proof.
  eexists. split; [reflexivity|]. split; [wire_image 24%nat|].
  decode_attr. repeat split; read_unset.
Qed.

(** X6: [getFirstMapKey] sends the descriptor, twelve zero bytes (padding
    and a null prior key) and the address of the output buffer, followed by
    zero bytes, whatever its arguments. *)
Theorem getFirstMapKey_wire_image (map_fd : unique_fd.t) (firstKey : Z) :
  exists attr : bpf_attr.t,
    attribute (getFirstMapKey map_fd firstKey) = Some attr
    /\ attr = bpf_attr.le 4 (u32 (unique_fd.get map_fd)) ++ replicate 12 0
              ++ bpf_attr.le 8 (ptr_to_u64 firstKey)
              ++ replicate (sizeof_bpf_attr - 24) 0
    /\ bpf_attr.get bpf_attr.key attr = 0.
Proof.
  eexists. split; [reflexivity|]. split; [wire_image 24%nat|].
  decode_attr. repeat split; read_unset.
Qed.

(** X7: [bpfFdPin] sends the address of the path as a 64-bit word, then the
    descriptor as a 32-bit word, followed by zero bytes: the open flags of
    the kernel's structure are zero. *)
Theorem bpfFdPin_wire_image (map_fd : unique_fd.t) (pathname : Z) :
  exists attr : bpf_attr.t,
    attribute (bpfFdPin map_fd pathname) = Some attr
    /\ attr = bpf_attr.le 8 (ptr_to_u64 pathname) ++ bpf_attr.le 4 (u32 (unique_fd.get map_fd))
              ++ replicate (sizeof_bpf_attr - 12) 0
    /\ bpf_attr.get bpf_attr.pathname attr = ptr_to_u64 pathname
    /\ bpf_attr.get bpf_attr.bpf_fd attr = u32 (unique_fd.get map_fd)
    /\ bpf_attr.get bpf_attr.file_flags attr = 0.
Proof.
  eexists. split; [reflexivity|]. split; [wire_image 12%nat|].
  decode_attr. repeat split; read_unset.
Qed.

(** X8: [bpfFdGet], and [mapRetrieve] with it, sends the address of the
    path as a 64-bit word, four zero bytes where a descriptor would stand,
    and the open flags as a 32-bit word, followed by zero bytes. *)
Theorem bpfFdGet_wire_image (pathname flag : Z) :
  exists attr : bpf_attr.t,
    attribute (bpfFdGet pathname flag) = Some attr
    /\ attribute (mapRetrieve pathname flag) = Some attr
    /\ attr = bpf_attr.le 8 (ptr_to_u64 pathname) ++ replicate 4 0 ++ bpf_attr.le 4 flag
              ++ replicate (sizeof_bpf_attr - 16) 0
    /\ bpf_attr.get bpf_attr.pathname attr = ptr_to_u64 pathname
    /\ bpf_attr.get bpf_attr.bpf_fd attr = 0
    /\ bpf_attr.get bpf_attr.file_flags attr = u32 flag.
Proof.
  eexists. split; [reflexivity|]. split; [reflexivity|]. split; [wire_image 16%nat|].
  decode_attr. repeat split; read_unset.
Qed.

(** X9: [attachProgram] sends the descriptor of the control group, the
    descriptor of the program and the attach type, in this order, as 32-bit
    words, followed by zero bytes. *)
Theorem attachProgram_wire_image (type : Z) (prog_fd cg_fd : unique_fd.t) :
  exists attr : bpf_attr.t,
    attribute (attachProgram type prog_fd cg_fd) = Some attr
    /\ attr = bpf_attr.le 4 (u32 (unique_fd.get cg_fd))
              ++ bpf_attr.le 4 (u32 (unique_fd.get prog_fd)) ++ bpf_attr.le 4 type
              ++ replicate (sizeof_bpf_attr - 12) 0
    /\ bpf_attr.get bpf_attr.target_fd attr = u32 (unique_fd.get cg_fd)
    /\ bpf_attr.get bpf_attr.attach_bpf_fd attr = u32 (unique_fd.get prog_fd)
    /\ bpf_attr.get bpf_attr.attach_type attr = u32 type.
Proof.
  eexists. split; [reflexivity|]. split; [wire_image 12%nat|].
  decode_attr. repeat split; read_unset.
Qed.

(** X10: [detachProgram] sends the descriptor of the control group, four
    zero bytes where the descriptor of a program would stand, and the
    attach type, followed by zero bytes: the same bytes as an
    [attachProgram] of a handle that holds the descriptor 0. *)
Theorem detachProgram_wire_image (type : Z) (cg_fd : unique_fd.t) :
  exists attr : bpf_attr.t,
    attribute (detachProgram type cg_fd) = Some attr
    /\ attr = bpf_attr.le 4 (u32 (unique_fd.get cg_fd)) ++ replicate 4 0
              ++ bpf_attr.le 4 type ++ replicate (sizeof_bpf_attr - 12) 0
    /\ bpf_attr.get bpf_attr.target_fd attr = u32 (unique_fd.get cg_fd)
    /\ bpf_attr.get bpf_attr.attach_bpf_fd attr = 0
    /\ bpf_attr.get bpf_attr.attach_type attr = u32 type
    /\ attribute (detachProgram type cg_fd)
       = attribute (attachProgram type (unique_fd.mk 0) cg_fd).
Proof.
  eexists. split; [reflexivity|]. split; [wire_image 12%nat|].
  decode_attr. repeat split; read_unset.
Qed.

(** X11: the descriptor of every handle an operation is given survives the
    cast to [__u32]: a member of the attribute holds it, and read as an
    [int], as the kernel does, it is the descriptor again, negative ones
    included. *)
Theorem descriptor_survives_the_cast (op : operation) (h : unique_fd.t) :
  h ∈ handles op ->
  is_int (unique_fd.get h) ->
  exists (attr : bpf_attr.t) (f : bpf_attr.field),
    attribute (perform op) = Some attr
    /\ f ∈ explicitly_set op
    /\ bpf_attr.get f attr = u32 (unique_fd.get h)
    /\ to_int (bpf_attr.get f attr) = unique_fd.get h.
Proof.
  intros Hh Hint.
  destruct op; cbn [handles] in Hh;
    repeat (apply elem_of_cons in Hh as [->|Hh]); try (by apply elem_of_nil in Hh);
    eexists _;
    [ exists bpf_attr.map_fd | exists bpf_attr.map_fd | exists bpf_attr.map_fd
    | exists bpf_attr.map_fd | exists bpf_attr.map_fd | exists bpf_attr.bpf_fd
    | exists bpf_attr.attach_bpf_fd | exists bpf_attr.target_fd | exists bpf_attr.target_fd ];
    (split; [reflexivity|]);
    (split; [cbn [explicitly_set];
             repeat first [apply list_elem_of_here | apply list_elem_of_further]|]);
    decode_attr; (split; [done|by apply to_int_u32]).
Qed.

(** X12: an argument that is zero leaves no trace: [findMapEntry] sends the
    bytes of a [writeToMapEntry] with flags 0, [deleteMapEntry] those of a
    [findMapEntry] with a null output buffer, and [getFirstMapKey] those of
    a [findMapEntry] with a null key buffer; only the command tells them
    apart. *)
Theorem zero_arguments_leave_no_trace (map_fd : unique_fd.t) (key value : Z) :
  attribute (findMapEntry map_fd key value)
  = attribute (writeToMapEntry map_fd key value 0)
  /\ attribute (deleteMapEntry map_fd key) = attribute (findMapEntry map_fd key NULL)
  /\ attribute (getFirstMapKey map_fd value) = attribute (findMapEntry map_fd NULL value).
Proof.
  repeat split;
    cbn [attribute findMapEntry writeToMapEntry deleteMapEntry getFirstMapKey getNextMapKey bpf];
    f_equal; rewrite !init_sizeof by reflexivity; by f_equal.
Qed.

End BpfUtils.

(** ** Independence of the size of the union *)

(** X13: compiled against a header with a larger [bpf_attr], every
    operation sends the same bytes as before, followed by more zero
    bytes. *)
Theorem larger_union_only_adds_zero_bytes (size size' : nat) (op : operation) :
  (32 <= size)%nat -> (size <= size')%nat ->
  attribute (perform size' op)
  = (fun attr => attr ++ replicate (size' - size) 0) <$> attribute (perform size op).
Proof.
  intros Hsize Hle.
  replace size' with (size + (size' - size))%nat at 1 by lia.
  assert (Hfit : forall f, bpf_attr.fits size f = true).
  { intros f. apply Nat.leb_le. destruct f; cbn; lia. }
  destruct op; cbn [perform];
    unfold createMap, writeToMapEntry, findMapEntry, deleteMapEntry, getFirstMapKey,
      getNextMapKey, bpfFdPin, mapRetrieve, bpfFdGet, attachProgram, detachProgram, bpf;
    cbn [attribute fmap option_fmap option_map]; f_equal; apply init_grow;
    apply forallb_forall; intros f _; apply Hfit.
Qed.

(** ** The guards of tests *)

(** X14: the two guards are complementary: whatever the support level, a
    test guarded by [SKIP_IF_BPF_NOT_SUPPORTED] runs its body exactly when
    a test guarded by [SKIP_IF_BPF_SUPPORTED] does not, that is, when the
    level is not [NONE]; only the former logs, and only when it skips. *)
Theorem guards_are_complementary (A : Type) (level : BpfLevel.t) (body : A) :
  ((guarded (SKIP_IF_BPF_NOT_SUPPORTED level) body).1 = Some body
   <-> level <> BpfLevel.NONE)
  /\ ((guarded (SKIP_IF_BPF_SUPPORTED level) body).1 = Some body
      <-> level = BpfLevel.NONE)
  /\ ((guarded (SKIP_IF_BPF_NOT_SUPPORTED level) body).1 = None
      <-> (guarded (SKIP_IF_BPF_SUPPORTED level) body).1 = Some body)
  /\ (guarded (SKIP_IF_BPF_SUPPORTED level) body).2 = []
  /\ ((guarded (SKIP_IF_BPF_NOT_SUPPORTED level) body).2 <> []
      <-> level = BpfLevel.NONE).
Proof. destruct level; cbn; repeat split; (done || congruence). Qed.

(** ** The conversion of the result *)

(** X15: whatever [long] the system call returns, an operation returns it
    reduced to an [int]: a value in the range of [int] that differs from
    the system call's by a multiple of 2^32, hence the very value when that
    is in range, and the world is left as the call left it. *)
Theorem result_is_reduced_to_int (size : nat) (op : operation) (W : Type)
    (handler : request -> W -> Z * W) (w w' : W) (q : request) (r : Z) :
  first_request (perform size op) = Some q ->
  handler q w = (r, w') ->
  run handler (perform size op) w = (to_int r, w')
  /\ is_int (to_int r)
  /\ (to_int r - r) mod 2 ^ 32 = 0
  /\ (is_int r -> to_int r = r).
Proof.
  intros Hq Hh.
  destruct (run_perform size handler op w) as (attr & Hq' & Hrun & _).
  rewrite Hq' in Hq. injection Hq as <-. rewrite Hrun, Hh. cbn [fst snd].
  split; [done|]. split; [apply to_int_range|]. split; [|apply to_int_id].
  unfold to_int. rewrite (Z.mod_eq (r + 2 ^ 31) (2 ^ 32)) by lia.
  replace (r + 2 ^ 31 - 2 ^ 32 * ((r + 2 ^ 31) `div` 2 ^ 32) - 2 ^ 31 - r)
    with (- ((r + 2 ^ 31) `div` 2 ^ 32) * 2 ^ 32) by lia.
  apply Z.mod_mul. lia.
Qed.

(** ** The operations at work

    Evaluations on concrete worlds, with [sizeof(bpf_attr)] = 72. *)

(** A [long] outside the range of [int] would not survive the conversion
    in [bpf]; bpf(2) returns none. *)
Example to_int_wraps : to_int (2 ^ 31) = - 2 ^ 31 /\ to_int (-1) = -1 /\ to_int 7 = 7.
Proof. repeat split. Qed.

(** The attribute of [detachProgram]: the control group's descriptor in
    bytes 0 to 3, the attach type in bytes 8 to 11, zero elsewhere. *)
Example detachProgram_attribute :
  attribute (detachProgram 72 1 (unique_fd.mk 4))
  = Some ([4; 0; 0; 0; 0; 0; 0; 0; 1; 0; 0; 0] ++ replicate 60 0).
Proof. vm_compute. reflexivity. Qed.

(** A descriptor of -1 (a handle that holds no descriptor) is passed as
    the [__u32] 0xffffffff. *)
Example deleteMapEntry_attribute :
  attribute (deleteMapEntry 72 (unique_fd.mk (-1)) 4096)
  = Some ([255; 255; 255; 255; 0; 0; 0; 0; 0; 16; 0; 0; 0; 0; 0; 0] ++ replicate 56 0).
Proof. vm_compute. reflexivity. Qed.

(** The modelled kernel refuses an attribute with a stray byte. *)
Example stray_byte_is_refused :
  (Kernel.bpf BPF_MAP_DELETE_ELEM (<[20%nat := 1]> (bpf_attr.init 72
      [(bpf_attr.map_fd, 5); (bpf_attr.key, 4096)])) 72 Kernel.sample).1 = -1
  /\ Kernel.errno (Kernel.bpf BPF_MAP_DELETE_ELEM (<[20%nat := 1]> (bpf_attr.init 72
      [(bpf_attr.map_fd, 5); (bpf_attr.key, 4096)])) 72 Kernel.sample).2 = Kernel.E2BIG.
Proof. vm_compute. split; reflexivity. Qed.

(** It refuses an attribute shorter than the size it is told. *)
Example short_attribute_is_refused :
  (Kernel.bpf BPF_MAP_DELETE_ELEM (bpf_attr.init 16
      [(bpf_attr.map_fd, 5); (bpf_attr.key, 4096)]) 72 Kernel.sample).1 = -1.
Proof. vm_compute. reflexivity. Qed.

(** [createMap] with a key size of zero is refused: no map, no descriptor. *)
Example createMap_refused :
  (run Kernel.syscall (createMap 72 1 0 8 10 0) Kernel.sample).1 = -1
  /\ Kernel.errno (run Kernel.syscall (createMap 72 1 0 8 10 0) Kernel.sample).2
     = Kernel.EINVAL
  /\ Kernel.fds (run Kernel.syscall (createMap 72 1 0 8 10 0) Kernel.sample).2
     = Kernel.fds Kernel.sample.
Proof. vm_compute. repeat split. Qed.

(** Reading a key the sample map does not hold fails with "not found" and
    leaves the output buffer as it was. *)
Example findMapEntry_absent :
  (run Kernel.syscall (findMapEntry 72 (unique_fd.mk 5) 4096 16384) Kernel.sample).1 = -1
  /\ Kernel.errno (run Kernel.syscall (findMapEntry 72 (unique_fd.mk 5) 4096 16384)
                     Kernel.sample).2 = Kernel.ENOENT
  /\ Kernel.mem (run Kernel.syscall (findMapEntry 72 (unique_fd.mk 5) 4096 16384)
                   Kernel.sample).2 = Kernel.mem Kernel.sample.
Proof. vm_compute. repeat split. Qed.

(** An operation on a descriptor that is not open fails with [EBADF]. *)
Example deleteMapEntry_bad_descriptor :
  run Kernel.syscall (deleteMapEntry 72 (unique_fd.mk (-1)) 4096) Kernel.sample
  = (-1, Kernel.with_errno Kernel.EBADF Kernel.sample).
Proof. vm_compute. reflexivity. Qed.

(** Write, then read: the output buffer at 16384 receives the eight bytes
    of the value buffer. *)
Example write_then_read_sample :
  let w1 := (run Kernel.syscall (createMap 72 1 4 8 10 0) Kernel.sample).2 in
  let w2 := (run Kernel.syscall (writeToMapEntry 72 (unique_fd.mk 0) 4096 8192 0) w1).2 in
  let w3 := (run Kernel.syscall (findMapEntry 72 (unique_fd.mk 0) 4096 16384) w2).2 in
  Kernel.read_bytes (Kernel.mem w3) 16384 8 = [1; 2; 3; 4; 5; 6; 7; 8].
Proof. vm_compute. reflexivity. Qed.

(** Iterating over the sample map visits the keys 1, 2 and 3 and stops
    at the fourth call. *)
Example iterate_sample :
  iterate 72 4 (unique_fd.mk 5) 16384 20480 4 Kernel.sample
  = ([[1; 0; 0; 0]; [2; 0; 0; 0]; [3; 0; 0; 0]], Some Kernel.ENOENT).
Proof. vm_compute. reflexivity. Qed.

(** Three calls are not enough to see the end of that iteration. *)
Example iterate_sample_out_of_fuel :
  iterate 72 3 (unique_fd.mk 5) 16384 20480 4 Kernel.sample
  = ([[1; 0; 0; 0]; [2; 0; 0; 0]; [3; 0; 0; 0]], None).
Proof. vm_compute. reflexivity. Qed.

Lemma sample_map_wf : Kernel.wf_map Kernel.sample_map.
Proof.
  split.
  - apply (bool_decide_unpack _). vm_compute. exact I.
  - repeat constructor.
Qed.

Lemma sample_wf : Kernel.wf Kernel.sample.
Proof.
  unfold Kernel.wf, Kernel.sample. cbn [Kernel.objs].
  apply Forall_cons; split; [exact I|].
  apply Forall_cons; split; [exact I|].
  apply Forall_cons; split; [exact sample_map_wf|].
  apply Forall_nil_2.
Qed.

(** [result_is_the_syscall_result] at [createMap] in the empty world: the
    kernel answers with descriptor 0, and so does the operation. *)
Lemma result_is_the_syscall_result_witness :
  run Kernel.syscall (perform 72 (CreateMap 1 4 8 10 0)) Kernel.boot
  = (0, (Kernel.syscall
           (sys_bpf BPF_MAP_CREATE
              (bpf_attr.init 72
                 [(bpf_attr.map_type, 1); (bpf_attr.key_size, 4); (bpf_attr.value_size, 8);
                  (bpf_attr.max_entries, 10); (bpf_attr.map_flags, 0)]) 72)
           Kernel.boot).2)
  /\ trace Kernel.syscall (perform 72 (CreateMap 1 4 8 10 0)) Kernel.boot
     = [sys_bpf BPF_MAP_CREATE
          (bpf_attr.init 72
             [(bpf_attr.map_type, 1); (bpf_attr.key_size, 4); (bpf_attr.value_size, 8);
              (bpf_attr.max_entries, 10); (bpf_attr.map_flags, 0)]) 72]
  /\ (0 <= (run Kernel.syscall (perform 72 (CreateMap 1 4 8 10 0)) Kernel.boot).1 <-> 0 <= 0).
Proof.
  apply (result_is_the_syscall_result 72 (CreateMap 1 4 8 10 0) Kernel.world Kernel.syscall
           Kernel.boot).
  - reflexivity.
  - vm_compute. reflexivity.
  - unfold is_int. lia.
Defined.

(** [write_then_read_round_trip] on a map created in the sample world. *)
Lemma write_then_read_round_trip_witness :
  exists w3 : Kernel.world,
    run Kernel.syscall (findMapEntry 72 (unique_fd.mk 0) 4096 16384)
      (run Kernel.syscall (writeToMapEntry 72 (unique_fd.mk 0) 4096 8192 0)
         (run Kernel.syscall (createMap 72 1 4 8 10 0) Kernel.sample).2).2
    = (0, w3)
    /\ Kernel.read_bytes (Kernel.mem w3) 16384 (Z.to_nat 8)
       = Kernel.read_bytes
           (Kernel.mem (run Kernel.syscall (createMap 72 1 4 8 10 0) Kernel.sample).2)
           8192 (Z.to_nat 8).
Proof.
  apply (write_then_read_round_trip 72 ltac:(lia) 1 4 8 10 0 4096 8192 0 16384
           Kernel.sample _ _ 0 0).
  - unfold is_u32. lia.
  - unfold is_ptr. lia.
  - unfold is_ptr. lia.
  - vm_compute. reflexivity.
  - lia.
  - vm_compute. reflexivity.
  - lia.
Defined.

(** [write_delete_then_read_is_not_found] on the sample map, with the new
    key 9. *)
Lemma write_delete_then_read_is_not_found_witness :
  exists (w2 w3 : Kernel.world) (m' : Kernel.bpf_map) (r3 : Z),
    run Kernel.syscall (deleteMapEntry 72 (unique_fd.mk 5) 4096)
      (run Kernel.syscall (writeToMapEntry 72 (unique_fd.mk 5) 4096 8192 0) Kernel.sample).2
    = (0, w2)
    /\ Kernel.map_at w2 5 = Some m'
    /\ (Kernel.read_bytes (Kernel.mem Kernel.sample) 4096
          (Kernel.m_key_size Kernel.sample_map) ∉ Kernel.keys m')
    /\ run Kernel.syscall (findMapEntry 72 (unique_fd.mk 5) 4096 16384) w2 = (r3, w3)
    /\ r3 < 0
    /\ Kernel.errno w3 = Kernel.ENOENT.
Proof.
  apply (write_delete_then_read_is_not_found 72 ltac:(lia) (unique_fd.mk 5) 4096 8192 0 16384
           Kernel.sample _ 0 Kernel.sample_map).
  - unfold is_int. cbn. lia.
  - unfold is_ptr. lia.
  - vm_compute. reflexivity.
  - vm_compute. reflexivity.
  - left. lia.
Defined.

(** [iteration_visits_every_key_once] on the sample map. *)
Lemma iteration_visits_every_key_once_witness :
  exists visited : list (list Z),
    iterate 72 4 (unique_fd.mk 5) 16384 20480 (Kernel.m_key_size Kernel.sample_map)
      Kernel.sample
    = (visited, Some Kernel.ENOENT)
    /\ NoDup visited
    /\ (forall k : list Z, k ∈ visited <-> k ∈ Kernel.keys Kernel.sample_map)
    /\ visited = Kernel.keys Kernel.sample_map.
Proof.
  apply (iteration_visits_every_key_once 72 ltac:(lia) (unique_fd.mk 5) 16384 20480
           Kernel.sample Kernel.sample_map 4).
  - unfold is_int. cbn. lia.
  - unfold is_ptr. lia.
  - unfold NULL. lia.
  - unfold is_ptr. lia.
  - exact sample_wf.
  - vm_compute. reflexivity.
  - cbn. lia.
Defined.

(** [attach_detach_then_detach_fails] on the control group and the program
    of the sample world. *)
Lemma attach_detach_then_detach_fails_witness :
  (0 <= 0 -> 0 = 0)
  /\ exists (attached2 : gmap Z nat) (w3 : Kernel.world) (r3 : Z),
       Kernel.attached_at
         (run Kernel.syscall (detachProgram 72 0 (unique_fd.mk 4))
            (run Kernel.syscall (attachProgram 72 0 (unique_fd.mk 3) (unique_fd.mk 4))
               Kernel.sample).2).2 4
       = Some attached2
       /\ attached2 !! u32 0 = None
       /\ run Kernel.syscall (detachProgram 72 0 (unique_fd.mk 4))
            (run Kernel.syscall (detachProgram 72 0 (unique_fd.mk 4))
               (run Kernel.syscall (attachProgram 72 0 (unique_fd.mk 3) (unique_fd.mk 4))
                  Kernel.sample).2).2
          = (r3, w3)
       /\ r3 < 0
       /\ Kernel.errno w3 = Kernel.ENOENT.
Proof.
  apply (attach_detach_then_detach_fails 72 ltac:(lia) 0 (unique_fd.mk 3) (unique_fd.mk 4)
           Kernel.sample
           (run Kernel.syscall (attachProgram 72 0 (unique_fd.mk 3) (unique_fd.mk 4))
              Kernel.sample).2
           _ 0 0 ∅).
  - unfold is_int. cbn. lia.
  - vm_compute. reflexivity.
  - vm_compute. reflexivity.
  - vm_compute. reflexivity.
Defined.

(** [pin_then_retrieve_names_the_same_object] on the sample map, pinned at
    the path "/m". *)
Lemma pin_then_retrieve_names_the_same_object_witness :
  0 = 0
  /\ 0 <> 5
  /\ (exists id : nat,
        Kernel.fds
          (run Kernel.syscall (mapRetrieve 72 12288 0)
             (run Kernel.syscall (bpfFdPin 72 (unique_fd.mk 5) 12288) Kernel.sample).2).2
        !! 0 = Some id
        /\ Kernel.fds
             (run Kernel.syscall (mapRetrieve 72 12288 0)
                (run Kernel.syscall (bpfFdPin 72 (unique_fd.mk 5) 12288) Kernel.sample).2).2
           !! 5 = Some id)
  /\ forall ha hb : unique_fd.t,
       (ha = unique_fd.mk 5 /\ hb = unique_fd.mk 0)
       \/ (ha = unique_fd.mk 0 /\ hb = unique_fd.mk 5) ->
       forall (key value flags out r3 : Z) (w3 : Kernel.world),
         is_ptr value -> is_ptr out ->
         run Kernel.syscall (writeToMapEntry 72 ha key value flags)
           (run Kernel.syscall (mapRetrieve 72 12288 0)
              (run Kernel.syscall (bpfFdPin 72 (unique_fd.mk 5) 12288) Kernel.sample).2).2
         = (r3, w3) ->
         0 <= r3 ->
         exists (m : Kernel.bpf_map) (w4 : Kernel.world),
           Kernel.map_at
             (run Kernel.syscall (mapRetrieve 72 12288 0)
                (run Kernel.syscall (bpfFdPin 72 (unique_fd.mk 5) 12288) Kernel.sample).2).2
             5 = Some m
           /\ run Kernel.syscall (findMapEntry 72 hb key out) w3 = (0, w4)
           /\ Kernel.read_bytes (Kernel.mem w4) out (Kernel.m_value_size m)
              = Kernel.read_bytes
                  (Kernel.mem
                     (run Kernel.syscall (mapRetrieve 72 12288 0)
                        (run Kernel.syscall (bpfFdPin 72 (unique_fd.mk 5) 12288)
                           Kernel.sample).2).2)
                  value (Kernel.m_value_size m).
Proof.
  apply (pin_then_retrieve_names_the_same_object 72 ltac:(lia) (unique_fd.mk 5) 12288 0
           Kernel.sample
           (run Kernel.syscall (bpfFdPin 72 (unique_fd.mk 5) 12288) Kernel.sample).2 _ 0 0).
  - unfold is_int. cbn. lia.
  - unfold is_ptr. lia.
  - intros path _. reflexivity.
  - vm_compute. reflexivity.
  - vm_compute. reflexivity.
  - lia.
Defined.

(** [handle_is_never_closed] at a [deleteMapEntry] on the sample map. *)
Lemma handle_is_never_closed_witness :
  (exists (designated : list (bpf_attr.field * Z)) (f : bpf_attr.field),
     trace Kernel.syscall (perform 72 (DeleteMapEntry (unique_fd.mk 5) 4096)) Kernel.sample
     = [sys_bpf BPF_MAP_DELETE_ELEM (bpf_attr.init 72 designated) 72]
     /\ (f, u32 5) ∈ designated)
  /\ forall q : request,
       issues (perform 72 (DeleteMapEntry (unique_fd.mk 5) 4096)) q ->
       forall fd : Z, q <> sys_close fd.
Proof.
  apply (handle_is_never_closed 72 (DeleteMapEntry (unique_fd.mk 5) 4096)
           (unique_fd.mk 5) Kernel.world Kernel.syscall Kernel.sample).
  apply list_elem_of_here.
Defined.

(** [createMap_wire_image] at a hash map of 4-byte keys and 8-byte values. *)
Lemma createMap_wire_image_witness :
  exists attr : bpf_attr.t,
    attribute (createMap 72 1 4 8 10 0) = Some attr
    /\ attr = bpf_attr.le 4 1 ++ bpf_attr.le 4 4 ++ bpf_attr.le 4 8
              ++ bpf_attr.le 4 10 ++ bpf_attr.le 4 0 ++ replicate (72 - 20) 0
    /\ bpf_attr.get bpf_attr.map_type attr = u32 1
    /\ bpf_attr.get bpf_attr.key_size attr = u32 4
    /\ bpf_attr.get bpf_attr.value_size attr = u32 8
    /\ bpf_attr.get bpf_attr.max_entries attr = u32 10
    /\ bpf_attr.get bpf_attr.map_flags attr = u32 0.
Proof. apply (createMap_wire_image 72 ltac:(lia) 1 4 8 10 0). Defined.

(** [writeToMapEntry_wire_image] at descriptor 5 and buffers at 4096 and
    8192. *)
Lemma writeToMapEntry_wire_image_witness :
  exists attr : bpf_attr.t,
    attribute (writeToMapEntry 72 (unique_fd.mk 5) 4096 8192 1) = Some attr
    /\ attr = bpf_attr.le 4 (u32 5) ++ replicate 4 0
              ++ bpf_attr.le 8 (ptr_to_u64 4096) ++ bpf_attr.le 8 (ptr_to_u64 8192)
              ++ bpf_attr.le 8 1 ++ replicate (72 - 32) 0
    /\ bpf_attr.get bpf_attr.map_fd attr = u32 5
    /\ bpf_attr.get bpf_attr.key attr = ptr_to_u64 4096
    /\ bpf_attr.get bpf_attr.value attr = ptr_to_u64 8192
    /\ bpf_attr.get bpf_attr.flags attr = u64 1.
Proof. apply (writeToMapEntry_wire_image 72 ltac:(lia) (unique_fd.mk 5) 4096 8192 1). Defined.

(** [findMapEntry_wire_image] at descriptor 5. *)
Lemma findMapEntry_wire_image_witness :
  exists attr : bpf_attr.t,
    attribute (findMapEntry 72 (unique_fd.mk 5) 4096 16384) = Some attr
    /\ attr = bpf_attr.le 4 (u32 5) ++ replicate 4 0
              ++ bpf_attr.le 8 (ptr_to_u64 4096) ++ bpf_attr.le 8 (ptr_to_u64 16384)
              ++ replicate (72 - 24) 0
    /\ bpf_attr.get bpf_attr.map_fd attr = u32 5
    /\ bpf_attr.get bpf_attr.key attr = ptr_to_u64 4096
    /\ bpf_attr.get bpf_attr.value attr = ptr_to_u64 16384
    /\ bpf_attr.get bpf_attr.flags attr = 0.
Proof. apply (findMapEntry_wire_image 72 ltac:(lia) (unique_fd.mk 5) 4096 16384). Defined.

(** [deleteMapEntry_wire_image] at descriptor 5. *)
Lemma deleteMapEntry_wire_image_witness :
  exists attr : bpf_attr.t,
    attribute (deleteMapEntry 72 (unique_fd.mk 5) 4096) = Some attr
    /\ attr = bpf_attr.le 4 (u32 5) ++ replicate 4 0
              ++ bpf_attr.le 8 (ptr_to_u64 4096) ++ replicate (72 - 16) 0
    /\ bpf_attr.get bpf_attr.map_fd attr = u32 5
    /\ bpf_attr.get bpf_attr.key attr = ptr_to_u64 4096
    /\ bpf_attr.get bpf_attr.value attr = 0
    /\ bpf_attr.get bpf_attr.flags attr = 0.
Proof. apply (deleteMapEntry_wire_image 72 ltac:(lia) (unique_fd.mk 5) 4096). Defined.

(** [getNextMapKey_wire_image] at descriptor 5. *)
Lemma getNextMapKey_wire_image_witness :
  exists attr : bpf_attr.t,
    attribute (getNextMapKey 72 (unique_fd.mk 5) 4096 16384) = Some attr
    /\ attr = bpf_attr.le 4 (u32 5) ++ replicate 4 0
              ++ bpf_attr.le 8 (ptr_to_u64 4096) ++ bpf_attr.le 8 (ptr_to_u64 16384)
              ++ replicate (72 - 24) 0
    /\ bpf_attr.get bpf_attr.map_fd attr = u32 5
    /\ bpf_attr.get bpf_attr.key attr = ptr_to_u64 4096
    /\ bpf_attr.get bpf_attr.next_key attr = ptr_to_u64 16384
    /\ attribute (getNextMapKey 72 (unique_fd.mk 5) 4096 16384)
       = attribute (findMapEntry 72 (unique_fd.mk 5) 4096 16384).
Proof. apply (getNextMapKey_wire_image 72 ltac:(lia) (unique_fd.mk 5) 4096 16384). Defined.

(** [getFirstMapKey_wire_image] at descriptor 5. *)
Lemma getFirstMapKey_wire_image_witness :
  exists attr : bpf_attr.t,
    attribute (getFirstMapKey 72 (unique_fd.mk 5) 16384) = Some attr
    /\ attr = bpf_attr.le 4 (u32 5) ++ replicate 12 0
              ++ bpf_attr.le 8 (ptr_to_u64 16384) ++ replicate (72 - 24) 0
    /\ bpf_attr.get bpf_attr.key attr = 0.
Proof. apply (getFirstMapKey_wire_image 72 ltac:(lia) (unique_fd.mk 5) 16384). Defined.

(** [bpfFdPin_wire_image] at descriptor 5 and a path at 12288. *)
Lemma bpfFdPin_wire_image_witness :
  exists attr : bpf_attr.t,
    attribute (bpfFdPin 72 (unique_fd.mk 5) 12288) = Some attr
    /\ attr = bpf_attr.le 8 (ptr_to_u64 12288) ++ bpf_attr.le 4 (u32 5)
              ++ replicate (72 - 12) 0
    /\ bpf_attr.get bpf_attr.pathname attr = ptr_to_u64 12288
    /\ bpf_attr.get bpf_attr.bpf_fd attr = u32 5
    /\ bpf_attr.get bpf_attr.file_flags attr = 0.
Proof. apply (bpfFdPin_wire_image 72 ltac:(lia) (unique_fd.mk 5) 12288). Defined.

(** [bpfFdGet_wire_image] at a path at 12288, opened read-only. *)
Lemma bpfFdGet_wire_image_witness :
  exists attr : bpf_attr.t,
    attribute (bpfFdGet 72 12288 8) = Some attr
    /\ attribute (mapRetrieve 72 12288 8) = Some attr
    /\ attr = bpf_attr.le 8 (ptr_to_u64 12288) ++ replicate 4 0 ++ bpf_attr.le 4 8
              ++ replicate (72 - 16) 0
    /\ bpf_attr.get bpf_attr.pathname attr = ptr_to_u64 12288
    /\ bpf_attr.get bpf_attr.bpf_fd attr = 0
    /\ bpf_attr.get bpf_attr.file_flags attr = u32 8.
Proof. apply (bpfFdGet_wire_image 72 ltac:(lia) 12288 8). Defined.

(** [attachProgram_wire_image] at program 3 and control group 4. *)
Lemma attachProgram_wire_image_witness :
  exists attr : bpf_attr.t,
    attribute (attachProgram 72 1 (unique_fd.mk 3) (unique_fd.mk 4)) = Some attr
    /\ attr = bpf_attr.le 4 (u32 4) ++ bpf_attr.le 4 (u32 3) ++ bpf_attr.le 4 1
              ++ replicate (72 - 12) 0
    /\ bpf_attr.get bpf_attr.target_fd attr = u32 4
    /\ bpf_attr.get bpf_attr.attach_bpf_fd attr = u32 3
    /\ bpf_attr.get bpf_attr.attach_type attr = u32 1.
Proof.
  apply (attachProgram_wire_image 72 ltac:(lia) 1 (unique_fd.mk 3) (unique_fd.mk 4)).
Defined.

(** [detachProgram_wire_image] at control group 4. *)
Lemma detachProgram_wire_image_witness :
  exists attr : bpf_attr.t,
    attribute (detachProgram 72 1 (unique_fd.mk 4)) = Some attr
    /\ attr = bpf_attr.le 4 (u32 4) ++ replicate 4 0 ++ bpf_attr.le 4 1
              ++ replicate (72 - 12) 0
    /\ bpf_attr.get bpf_attr.target_fd attr = u32 4
    /\ bpf_attr.get bpf_attr.attach_bpf_fd attr = 0
    /\ bpf_attr.get bpf_attr.attach_type attr = u32 1
    /\ attribute (detachProgram 72 1 (unique_fd.mk 4))
       = attribute (attachProgram 72 1 (unique_fd.mk 0) (unique_fd.mk 4)).
Proof. apply (detachProgram_wire_image 72 ltac:(lia) 1 (unique_fd.mk 4)). Defined.

(** [descriptor_survives_the_cast] at a handle that holds -1. *)
Lemma descriptor_survives_the_cast_witness :
  exists (attr : bpf_attr.t) (f : bpf_attr.field),
    attribute (perform 72 (BpfFdPin (unique_fd.mk (-1)) 12288)) = Some attr
    /\ f ∈ explicitly_set (BpfFdPin (unique_fd.mk (-1)) 12288)
    /\ bpf_attr.get f attr = u32 (-1)
    /\ to_int (bpf_attr.get f attr) = -1.
Proof.
  apply (descriptor_survives_the_cast 72 ltac:(lia) (BpfFdPin (unique_fd.mk (-1)) 12288)
           (unique_fd.mk (-1))).
  - apply list_elem_of_here.
  - unfold is_int. cbn. lia.
Defined.

(** [zero_arguments_leave_no_trace] at descriptor 5. *)
Lemma zero_arguments_leave_no_trace_witness :
  attribute (findMapEntry 72 (unique_fd.mk 5) 4096 16384)
  = attribute (writeToMapEntry 72 (unique_fd.mk 5) 4096 16384 0)
  /\ attribute (deleteMapEntry 72 (unique_fd.mk 5) 4096)
     = attribute (findMapEntry 72 (unique_fd.mk 5) 4096 NULL)
  /\ attribute (getFirstMapKey 72 (unique_fd.mk 5) 16384)
     = attribute (findMapEntry 72 (unique_fd.mk 5) NULL 16384).
Proof.
  apply (zero_arguments_leave_no_trace 72 ltac:(lia) (unique_fd.mk 5) 4096 16384).
Defined.

(** [larger_union_only_adds_zero_bytes] from 72 to 120 bytes. *)
Lemma larger_union_only_adds_zero_bytes_witness :
  attribute (perform 120 (DeleteMapEntry (unique_fd.mk 5) 4096))
  = (fun attr => attr ++ replicate (120 - 72) 0)
      <$> attribute (perform 72 (DeleteMapEntry (unique_fd.mk 5) 4096)).
Proof.
  apply (larger_union_only_adds_zero_bytes 72 120 (DeleteMapEntry (unique_fd.mk 5) 4096));
    lia.
Defined.

(** [result_is_reduced_to_int] at a system call that answers 2^32 + 5. *)
Lemma result_is_reduced_to_int_witness :
  run (fun (_ : request) (n : nat) => (2 ^ 32 + 5, S n))
    (perform 72 (DeleteMapEntry (unique_fd.mk 5) 4096)) 0%nat
  = (to_int (2 ^ 32 + 5), 1%nat)
  /\ is_int (to_int (2 ^ 32 + 5))
  /\ (to_int (2 ^ 32 + 5) - (2 ^ 32 + 5)) mod 2 ^ 32 = 0
  /\ (is_int (2 ^ 32 + 5) -> to_int (2 ^ 32 + 5) = 2 ^ 32 + 5).
Proof.
  apply (result_is_reduced_to_int 72 (DeleteMapEntry (unique_fd.mk 5) 4096) nat
           (fun (_ : request) (n : nat) => (2 ^ 32 + 5, S n)) 0%nat 1%nat
           (sys_bpf BPF_MAP_DELETE_ELEM
              (bpf_attr.init 72 [(bpf_attr.map_fd, u32 5); (bpf_attr.key, ptr_to_u64 4096)])
              72)).
  - reflexivity.
  - reflexivity.
Defined.
